(** * auto_rig_glb: body-type classification and procedural skeleton build

    A shallow embedding of [src/auto_rig_glb.py].  The Python function
    [auto_rig_glb] is one long body; it is cut here into the pieces its own
    comments delimit (ground-contact analysis, [create_bone], anchor
    coordinates, the humanoid and the quadruped branch), each keeping the
    names of the local variables of the source.

    Numbers.  Python floats are idealised as exact rationals ([Q]); every
    arithmetic expression of the source is kept as written, so the theorems
    over [Q] describe the algorithm and are silent on rounding.  Equality of
    coordinates is therefore [Qeq] ([==]), componentwise on vectors.  The
    ground-contact analysis ends in a strict comparison, which rounding can
    decide; it is embedded a second time over binary64 floats, the numbers
    Python computes with, and the threshold rule is stated of that
    embedding.

    Host.  The script runs inside Blender; [bpy] and [mathutils] are not part
    of the repository.  The few host operations the bone-building code goes
    through (vector arithmetic, matrix-vector product, [min]/[max] over a
    sequence, list indexing, [armatures.new], [edit_bones.new]) are modelled
    in the first sections below, each with the host behaviour it stands for
    written out. *)

From Stdlib Require Import Floats.
From Stdlib Require Import String Ascii DecimalString DecimalNat.
From Stdlib Require Import QArith Lqa Bool Arith Lia List Permutation.
Import ListNotations.

Set Warnings "-inexact-float".

Open Scope Q_scope.

(* ------------------------------------------------------------------ *)
(** ** Outcomes of a Python call *)

(** The exceptions that matter here.  [ValueError] is what [min] and [max]
    raise on an empty sequence, [IndexError] what list indexing raises out
    of range and [ReferenceError] the host's complaint about a bone that is
    not in the armature.  The source defines no exception class of its own;
    [EmptyMeshError] and [DuplicateNameError] are the two failures the
    specification names. *)
Inductive exn : Type :=
| ValueError
| IndexError
| ReferenceError
| EmptyMeshError
| DuplicateNameError.

Inductive result (A : Type) : Type :=
| Ok (a : A)
| Raise (e : exn).

Arguments Ok {A} a.
Arguments Raise {A} e.

Definition rbind {A B : Type} (r : result A) (k : A -> result B) : result B :=
  match r with
  | Ok a => k a
  | Raise e => Raise e
  end.

Declare Scope result_scope.
Delimit Scope result_scope with result.
Notation "'let?' x := r 'in' k" :=
  (rbind r (fun x => k))
    (at level 10, x name, r at level 100, k at level 200) : result_scope.

(* ------------------------------------------------------------------ *)
(** ** Numbers and [mathutils] values *)

(** Python's [x < y] on numbers.  [Qle_bool] is the library's [<=]. *)
Definition Qlt_bool (x y : Q) : bool :=
  (Qnum x * QDen y <? Qnum y * QDen x)%Z.

(** [not seq] for a list: Python's truth value of a sequence. *)
Definition nonempty {A : Type} (l : list A) : bool :=
  match l with
  | [] => false
  | _ :: _ => true
  end.

(** [mathutils.Vector] of size three. *)
Record Vector : Type := mkVector { vx : Q; vy : Q; vz : Q }.

Definition vadd (a b : Vector) : Vector :=
  mkVector (vx a + vx b) (vy a + vy b) (vz a + vz b).

Definition veq (a b : Vector) : Prop :=
  vx a == vx b /\ vy a == vy b /\ vz a == vz b.

(** [mathutils.Matrix], 4x4, row major. *)
Record Row4 : Type := mkRow4 { c0 : Q; c1 : Q; c2 : Q; c3 : Q }.
Record Matrix : Type := mkMatrix { r0 : Row4; r1 : Row4; r2 : Row4; r3 : Row4 }.

Definition row_dot (r : Row4) (v : Vector) : Q :=
  c0 r * vx v + c1 r * vy v + c2 r * vz v + c3 r * 1.

(** [m @ v] for a 4x4 matrix and a 3-vector: the vector is extended with a
    fourth component 1 and the first three components of the product are
    returned. *)
Definition mat_mul_vec (m : Matrix) (v : Vector) : Vector :=
  mkVector (row_dot (r0 m) v) (row_dot (r1 m) v) (row_dot (r2 m) v).

Definition identity_matrix : Matrix :=
  mkMatrix (mkRow4 1 0 0 0) (mkRow4 0 1 0 0) (mkRow4 0 0 1 0) (mkRow4 0 0 0 1).

(** Python's [min(iterable)]: [ValueError] on an empty iterable; otherwise
    the first item is the candidate and a later item replaces it only when it
    is strictly smaller. *)
Definition py_min (l : list Q) : result Q :=
  match l with
  | [] => Raise ValueError
  | x :: rest =>
      Ok (fold_left (fun cur item => if Qlt_bool item cur then item else cur) rest x)
  end.

(** Python's [max(iterable)]: as [py_min], replacing on strictly greater. *)
Definition py_max (l : list Q) : result Q :=
  match l with
  | [] => Raise ValueError
  | x :: rest =>
      Ok (fold_left (fun cur item => if Qlt_bool cur item then item else cur) rest x)
  end.

(* ------------------------------------------------------------------ *)
(** ** Ground-contact analysis (source lines 50-82) *)

Inductive CharType : Type := Humanoid | Quadruped.

(** What the analysis hands to the rest of [auto_rig_glb]: the ground level
    [min_z], the flag [is_quadruped] and the printed [char_type]. *)
Record Classification : Type := mkClassification {
  min_z : Q;
  is_quadruped : bool;
  char_type : CharType
}.

Definition foot_verts_of (height min_z : Q) (verts : list Vector) : list Vector :=
  let eps := 0.05 * height in
  filter (fun v => Qle_bool (vz v) (min_z + eps)) verts.

Definition left_foot_verts_of (foot_verts : list Vector) : list Vector :=
  filter (fun v => Qlt_bool (vx v) 0) foot_verts.

Definition right_foot_verts_of (foot_verts : list Vector) : list Vector :=
  filter (fun v => Qlt_bool 0 (vx v)) foot_verts.

(** [max(v.y for v in vs) - min(v.y for v in vs)]. *)
Definition y_range (vs : list Vector) : result Q :=
  (let? hi := py_max (map vy vs) in
   let? lo := py_min (map vy vs) in
   Ok (hi - lo))%result.

Definition num_feet_of (left_foot_verts right_foot_verts : list Vector) : nat :=
  let num_feet := 0%nat in
  if nonempty left_foot_verts then
    (num_feet + (if negb (nonempty right_foot_verts) then 1 else 2))%nat
  else if nonempty right_foot_verts then
    (num_feet + 1)%nat
  else num_feet.

Definition classify (height : Q) (verts : list Vector) : result Classification :=
  (let? min_z :=
     (if nonempty verts then py_min (map vz verts) else Ok 0.0) in
   let foot_verts := foot_verts_of height min_z verts in
   let left_foot_verts := left_foot_verts_of foot_verts in
   let right_foot_verts := right_foot_verts_of foot_verts in
   let num_feet := num_feet_of left_foot_verts right_foot_verts in
   let? is_quadruped :=
     (if nonempty left_foot_verts && nonempty right_foot_verts then
        let? left_y_range :=
          (if nonempty left_foot_verts then y_range left_foot_verts else Ok 0) in
        let? right_y_range :=
          (if nonempty right_foot_verts then y_range right_foot_verts else Ok 0) in
        let? total_y_range :=
          (if nonempty verts then y_range verts else Ok 0) in
        if Qlt_bool (0.3 * total_y_range) left_y_range
           && Qlt_bool (0.3 * total_y_range) right_y_range
        then Ok true
        else Ok false
      else if (3 <=? num_feet)%nat then Ok true
      else Ok false) in
   let char_type := if is_quadruped then Quadruped else Humanoid in
   Ok (mkClassification min_z is_quadruped char_type))%result.

(* ------------------------------------------------------------------ *)
(** ** The analysis in floating point (source lines 50-82)

    The same lines once more, with the numbers as the program has them:
    binary64 floats, every operation rounded to nearest.  A coordinate read
    off a [mathutils] vector ([v.x], [v.y], [v.z], [dimensions.z]) is a
    Python float holding the stored binary32 value unchanged, and the
    literals 0.05, 0.3 and 0 are Python floats; sums, differences, products
    and comparisons are Python's.  It is used where rounding decides the
    outcome, that is, for the threshold test of line 75. *)

Record FVector : Type := mkFVector { fx : float; fy : float; fz : float }.

(** [min] and [max] over floats: the candidate is replaced on a strict
    comparison, which is false whenever a NaN is involved. *)
Definition py_min_f (l : list float) : result float :=
  match l with
  | [] => Raise ValueError
  | x :: rest =>
      Ok (fold_left (fun cur item => if PrimFloat.ltb item cur then item else cur)
                    rest x)
  end.

Definition py_max_f (l : list float) : result float :=
  match l with
  | [] => Raise ValueError
  | x :: rest =>
      Ok (fold_left (fun cur item => if PrimFloat.ltb cur item then item else cur)
                    rest x)
  end.

Record FClassification : Type := mkFClassification {
  min_z_f : float;
  is_quadruped_f : bool;
  char_type_f : CharType
}.

Definition foot_verts_f (height min_z : float) (verts : list FVector)
  : list FVector :=
  let eps := (0.05 * height)%float in
  filter (fun v => PrimFloat.leb (fz v) (min_z + eps)%float) verts.

Definition left_foot_verts_f (foot_verts : list FVector) : list FVector :=
  filter (fun v => PrimFloat.ltb (fx v) 0%float) foot_verts.

Definition right_foot_verts_f (foot_verts : list FVector) : list FVector :=
  filter (fun v => PrimFloat.ltb 0%float (fx v)) foot_verts.

Definition y_range_f (vs : list FVector) : result float :=
  (let? hi := py_max_f (map fy vs) in
   let? lo := py_min_f (map fy vs) in
   Ok (hi - lo)%float)%result.

Definition num_feet_f (left_foot_verts right_foot_verts : list FVector) : nat :=
  let num_feet := 0%nat in
  if nonempty left_foot_verts then
    (num_feet + (if negb (nonempty right_foot_verts) then 1 else 2))%nat
  else if nonempty right_foot_verts then
    (num_feet + 1)%nat
  else num_feet.

Definition classify_f (height : float) (verts : list FVector)
  : result FClassification :=
  (let? min_z :=
     (if nonempty verts then py_min_f (map fz verts) else Ok 0.0%float) in
   let foot_verts := foot_verts_f height min_z verts in
   let left_foot_verts := left_foot_verts_f foot_verts in
   let right_foot_verts := right_foot_verts_f foot_verts in
   let num_feet := num_feet_f left_foot_verts right_foot_verts in
   let? is_quadruped :=
     (if nonempty left_foot_verts && nonempty right_foot_verts then
        let? left_y_range :=
          (if nonempty left_foot_verts then y_range_f left_foot_verts
           else Ok 0%float) in
        let? right_y_range :=
          (if nonempty right_foot_verts then y_range_f right_foot_verts
           else Ok 0%float) in
        let? total_y_range :=
          (if nonempty verts then y_range_f verts else Ok 0%float) in
        if PrimFloat.ltb (0.3 * total_y_range)%float left_y_range
           && PrimFloat.ltb (0.3 * total_y_range)%float right_y_range
        then Ok true
        else Ok false
      else if (3 <=? num_feet)%nat then Ok true
      else Ok false) in
   let char_type := if is_quadruped then Quadruped else Humanoid in
   Ok (mkFClassification min_z is_quadruped char_type))%result.

(* ------------------------------------------------------------------ *)
(** ** Host: names of bones and armatures

    [edit_bones.new(name)] and [armatures.new(name)] never reject a name.
    The host stores at most 63 bytes of it, replaces an empty name by a
    default one and, when the name is taken, numbers it: a trailing
    [.digits] suffix is split off and read as a number, and the first of
    [left.NNN] (three digits at least, counting up from that number plus one,
    [left] shortened so that the whole fits in 63 bytes) that is not taken is
    used.  Numbers are natural numbers here; the host's are C [int]s. *)

Definition MAX_NAME : nat := 64.

Definition delim : ascii := "."%char.

Definition is_digit (c : ascii) : bool :=
  ((48 <=? nat_of_ascii c) && (nat_of_ascii c <=? 57))%nat.

(** [atol] on a run of decimal digits. *)
Definition atol (digits : list ascii) : nat :=
  fold_left (fun acc c => (10 * acc + (nat_of_ascii c - 48))%nat) digits 0%nat.

(** Walk a name from its end over digits; at the delimiter return what is
    left of it (still reversed) and the digits walked over. *)
Fixpoint scan_number (rev_name digits : list ascii)
  : option (list ascii * list ascii) :=
  match rev_name with
  | [] => None
  | c :: rest =>
      if Ascii.eqb c delim then Some (rest, digits)
      else if is_digit c then scan_number rest (c :: digits)
      else None
  end.

Definition split_name_number (name : string) : string * nat :=
  let rev_name := rev (list_ascii_of_string name) in
  let ends_with_delim :=
    match rev_name with
    | c :: _ :: _ => Ascii.eqb c delim
    | _ => false
    end in
  if ends_with_delim then (name, 0%nat)
  else
    match scan_number rev_name [] with
    | Some (rev_left, digits) =>
        (string_of_list_ascii (rev rev_left), atol digits)
    | None => (name, 0%nat)
    end.

(** [printf("%03d", n)]. *)
Definition pad3 (s : string) : string :=
  match String.length s with
  | 0%nat => String "0" (String "0" (String "0" s))
  | 1%nat => String "0" (String "0" s)
  | 2%nat => String "0" s
  | _ => s
  end.

Definition numstr (number : nat) : string :=
  String delim (pad3 (NilEmpty.string_of_uint (Nat.to_uint number))).

Definition tempname (left : string) (number : nat) : string :=
  let numlen := String.length (numstr number) in
  String.append (substring 0 (MAX_NAME - 1 - numlen) left) (numstr number).

Definition name_taken (used : list string) (name : string) : bool :=
  existsb (String.eqb name) used.

(** The host's [do ... while] over candidate names.  [fuel] bounds the number
    of candidates tried before the last one is taken as it is; with
    [fuel = length used] the bound is never hit ([first_free_fresh]). *)
Fixpoint first_free (used : list string) (left : string) (number fuel : nat)
  : string :=
  let number := S number in
  match fuel with
  | O => tempname left number
  | S fuel' =>
      if name_taken used (tempname left number)
      then first_free used left number fuel'
      else tempname left number
  end.

Definition unique_name (used : list string) (defname name : string) : string :=
  let name := substring 0 (MAX_NAME - 1) name in
  let name := if String.eqb name EmptyString then defname else name in
  if name_taken used name then
    let (left, number) := split_name_number name in
    first_free used left number (List.length used)
  else name.

(* ------------------------------------------------------------------ *)
(** ** Host: armatures and their edit bones *)

(** A reference to an edit bone: its position in [arm.edit_bones], which is
    the order of creation (no bone is removed while the rig is built). *)
Definition BoneRef : Type := nat.

Record EditBone : Type := mkEditBone {
  name : string;
  head : Vector;
  tail : Vector;
  parent : option BoneRef;
  use_connect : bool
}.

Record Armature : Type := mkArmature {
  arm_name : string;
  edit_bones : list EditBone
}.

(** [bpy.data.armatures]. *)
Definition BlendData : Type := list Armature.

Definition armatures_new (name : string) (data : BlendData)
  : Armature * BlendData :=
  let arm := mkArmature (unique_name (map arm_name data) "Armature" name) [] in
  (arm, data ++ [arm]).

(** Code that edits [arm.edit_bones]: the collection is threaded through,
    and a call may raise. *)
Definition Edit (A : Type) : Type :=
  list EditBone -> result (A * list EditBone).

Definition ret {A : Type} (a : A) : Edit A :=
  fun bones => Ok (a, bones).

Definition bind {A B : Type} (m : Edit A) (k : A -> Edit B) : Edit B :=
  fun bones =>
    match m bones with
    | Ok (a, bones') => k a bones'
    | Raise e => Raise e
    end.

Declare Scope edit_scope.
Delimit Scope edit_scope with edit.
Notation "x <- m ;; k" := (bind m (fun x => k))
  (at level 61, m at next level, right associativity) : edit_scope.
Notation "m ;; k" := (bind m (fun _ => k))
  (at level 61, right associativity) : edit_scope.

Definition zero_vector : Vector := mkVector 0 0 0.

Definition bone_names (bones : list EditBone) : list string :=
  map name bones.

(** [arm.edit_bones.new(name)]. *)
Definition edit_bones_new (name : string) : Edit BoneRef :=
  fun bones =>
    let bone :=
      mkEditBone (unique_name (bone_names bones) "Bone" name)
                 zero_vector zero_vector None false in
    Ok (List.length bones, bones ++ [bone]).

Fixpoint update (b : BoneRef) (f : EditBone -> EditBone) (bones : list EditBone)
  : option (list EditBone) :=
  match bones, b with
  | [], _ => None
  | bone :: rest, O => Some (f bone :: rest)
  | bone :: rest, S b' =>
      match update b' f rest with
      | Some rest' => Some (bone :: rest')
      | None => None
      end
  end.

(** Attribute assignment [bone.attr = value] and attribute read on a bone
    reference.  A reference to a bone that is not in the collection raises
    [ReferenceError]. *)
Definition modify (b : BoneRef) (f : EditBone -> EditBone) : Edit unit :=
  fun bones =>
    match update b f bones with
    | Some bones' => Ok (tt, bones')
    | None => Raise ReferenceError
    end.

Definition read {A : Type} (b : BoneRef) (attr : EditBone -> A) : Edit A :=
  fun bones =>
    match nth_error bones b with
    | Some bone => Ok (attr bone, bones)
    | None => Raise ReferenceError
    end.

Definition set_head (b : BoneRef) (v : Vector) : Edit unit :=
  modify b (fun bone =>
    mkEditBone (name bone) v (tail bone) (parent bone) (use_connect bone)).

Definition set_tail (b : BoneRef) (v : Vector) : Edit unit :=
  modify b (fun bone =>
    mkEditBone (name bone) (head bone) v (parent bone) (use_connect bone)).

Definition set_parent (b : BoneRef) (p : BoneRef) : Edit unit :=
  modify b (fun bone =>
    mkEditBone (name bone) (head bone) (tail bone) (Some p) (use_connect bone)).

Definition set_use_connect (b : BoneRef) (c : bool) : Edit unit :=
  modify b (fun bone =>
    mkEditBone (name bone) (head bone) (tail bone) (parent bone) c).

(* ------------------------------------------------------------------ *)
(** ** [create_bone] (source lines 96-105) *)

Definition create_bone (name : string) (head tail : Vector)
           (parent : option BoneRef) : Edit BoneRef :=
  (bone <- edit_bones_new name ;;
   set_head bone head ;;
   set_tail bone tail ;;
   match parent with
   | Some p =>
       set_parent bone p ;;
       set_use_connect bone false
   | None => ret tt
   end ;;
   ret bone)%edit.

(* ------------------------------------------------------------------ *)
(** ** Bone placement (source lines 107-204) *)

Infix "+v" := vadd (at level 50, left associativity).

(** The humanoid branch (lines 125-163). *)
Definition humanoid_bones (width length height min_z pelvis_x : Q)
           (pelvis_pos head_pos : Vector) : Edit unit :=
  (spine_base <- create_bone "Spine" pelvis_pos
                   (pelvis_pos +v mkVector 0 0 (0.3 * height)) None ;;
   spine_base_tail <- read spine_base tail ;;
   spine_top <- create_bone "Spine.001" spine_base_tail
                  (spine_base_tail +v mkVector 0 0 (0.3 * height))
                  (Some spine_base) ;;
   spine_top_tail <- read spine_top tail ;;
   neck <- create_bone "Spine.002" spine_top_tail
             (spine_top_tail +v mkVector 0 0 (0.2 * height)) (Some spine_top) ;;
   neck_tail <- read neck tail ;;
   head_bone <- create_bone "Head" neck_tail head_pos (Some neck) ;;
   let shoulder_z := vz neck_tail in
   let shoulder_y := vy neck_tail in
   let shoulder_offset := width * 0.5 in
   let left_shoulder_pos :=
     mkVector (pelvis_x + shoulder_offset) shoulder_y shoulder_z in
   let right_shoulder_pos :=
     mkVector (pelvis_x - shoulder_offset) shoulder_y shoulder_z in
   left_arm <- create_bone "upper_arm.L" left_shoulder_pos
                 (left_shoulder_pos +v mkVector 0 0 (-0.25 * height))
                 (Some spine_top) ;;
   left_arm_tail <- read left_arm tail ;;
   left_forearm <- create_bone "lower_arm.L" left_arm_tail
                     (left_arm_tail +v mkVector 0 0 (-0.25 * height))
                     (Some left_arm) ;;
   right_arm <- create_bone "upper_arm.R" right_shoulder_pos
                  (right_shoulder_pos +v mkVector 0 0 (-0.25 * height))
                  (Some spine_top) ;;
   right_arm_tail <- read right_arm tail ;;
   right_forearm <- create_bone "lower_arm.R" right_arm_tail
                      (right_arm_tail +v mkVector 0 0 (-0.25 * height))
                      (Some right_arm) ;;
   left_forearm_tail <- read left_forearm tail ;;
   left_hand <- create_bone "hand.L" left_forearm_tail
                  (left_forearm_tail +v mkVector 0 0 (-0.1 * height))
                  (Some left_forearm) ;;
   right_forearm_tail <- read right_forearm tail ;;
   right_hand <- create_bone "hand.R" right_forearm_tail
                   (right_forearm_tail +v mkVector 0 0 (-0.1 * height))
                   (Some right_forearm) ;;
   let hip_offset := width * 0.2 in
   let hip_z := vz pelvis_pos in
   let hip_y := vy pelvis_pos in
   let left_hip_pos := mkVector (pelvis_x + hip_offset) hip_y hip_z in
   let right_hip_pos := mkVector (pelvis_x - hip_offset) hip_y hip_z in
   left_thigh <- create_bone "thigh.L" left_hip_pos
                   (left_hip_pos +v mkVector 0 0 (-0.45 * height))
                   (Some spine_base) ;;
   right_thigh <- create_bone "thigh.R" right_hip_pos
                    (right_hip_pos +v mkVector 0 0 (-0.45 * height))
                    (Some spine_base) ;;
   left_thigh_tail <- read left_thigh tail ;;
   left_shin <- create_bone "shin.L" left_thigh_tail
                  (mkVector (vx left_thigh_tail) (vy left_thigh_tail)
                            (min_z + 0.05 * height))
                  (Some left_thigh) ;;
   right_thigh_tail <- read right_thigh tail ;;
   right_shin <- create_bone "shin.R" right_thigh_tail
                   (mkVector (vx right_thigh_tail) (vy right_thigh_tail)
                             (min_z + 0.05 * height))
                   (Some right_thigh) ;;
   left_shin_tail <- read left_shin tail ;;
   left_foot <- create_bone "foot.L" left_shin_tail
                  (mkVector (vx left_shin_tail)
                            (vy left_shin_tail + 0.05 * length) min_z)
                  (Some left_shin) ;;
   right_shin_tail <- read right_shin tail ;;
   right_foot <- create_bone "foot.R" right_shin_tail
                   (mkVector (vx right_shin_tail)
                             (vy right_shin_tail + 0.05 * length) min_z)
                   (Some right_shin) ;;
   ret tt)%edit.

(** The quadruped branch (lines 165-204).  [head_pos] is first the value
    computed before the branch and is then reassigned (line 175); the second
    value is [head_pos'] here.  The tail bone of lines 202-204 is commented
    out in the source. *)
Definition quadruped_bones (width length height min_z pelvis_x pelvis_y : Q)
           (pelvis_pos head_pos max_bb_world : Vector) : Edit unit :=
  (let hip_center :=
     mkVector pelvis_x (pelvis_y - 0.25 * length) (vz pelvis_pos) in
   let shoulder_center :=
     mkVector pelvis_x (pelvis_y + 0.25 * length) (vz pelvis_pos) in
   spine <- create_bone "Spine" hip_center shoulder_center None ;;
   let neck_base := shoulder_center +v mkVector 0 0 (0.1 * height) in
   let neck_top :=
     mkVector pelvis_x (pelvis_y + 0.25 * length) (vz head_pos * 0.8) in
   neck_bone <- create_bone "Neck" neck_base neck_top (Some spine) ;;
   let head_pos' := mkVector pelvis_x (pelvis_y + 0.5) (vz max_bb_world) in
   head_bone <- create_bone "Head" neck_top head_pos' (Some neck_bone) ;;
   let shoulder_offset := width * 0.3 in
   let hip_offset := width * 0.3 in
   let front_shoulder_L := shoulder_center +v mkVector shoulder_offset 0 0 in
   let front_shoulder_R := shoulder_center +v mkVector (- shoulder_offset) 0 0 in
   upper_front_L <- create_bone "upper_arm.L" front_shoulder_L
                      (front_shoulder_L +v mkVector 0 0 (-0.5 * height))
                      (Some spine) ;;
   upper_front_R <- create_bone "upper_arm.R" front_shoulder_R
                      (front_shoulder_R +v mkVector 0 0 (-0.5 * height))
                      (Some spine) ;;
   upper_front_L_tail <- read upper_front_L tail ;;
   lower_front_L <- create_bone "lower_arm.L" upper_front_L_tail
                      (mkVector (vx upper_front_L_tail) (vy upper_front_L_tail)
                                (min_z + 0.05 * height))
                      (Some upper_front_L) ;;
   upper_front_R_tail <- read upper_front_R tail ;;
   lower_front_R <- create_bone "lower_arm.R" upper_front_R_tail
                      (mkVector (vx upper_front_R_tail) (vy upper_front_R_tail)
                                (min_z + 0.05 * height))
                      (Some upper_front_R) ;;
   lower_front_L_tail <- read lower_front_L tail ;;
   front_foot_L <- create_bone "front_foot.L" lower_front_L_tail
                     (mkVector (vx lower_front_L_tail) (vy lower_front_L_tail)
                               min_z)
                     (Some lower_front_L) ;;
   lower_front_R_tail <- read lower_front_R tail ;;
   front_foot_R <- create_bone "front_foot.R" lower_front_R_tail
                     (mkVector (vx lower_front_R_tail) (vy lower_front_R_tail)
                               min_z)
                     (Some lower_front_R) ;;
   let back_hip_L := hip_center +v mkVector hip_offset 0 0 in
   let back_hip_R := hip_center +v mkVector (- hip_offset) 0 0 in
   upper_hind_L <- create_bone "thigh.L" back_hip_L
                     (back_hip_L +v mkVector 0 0 (-0.5 * height)) (Some spine) ;;
   upper_hind_R <- create_bone "thigh.R" back_hip_R
                     (back_hip_R +v mkVector 0 0 (-0.5 * height)) (Some spine) ;;
   upper_hind_L_tail <- read upper_hind_L tail ;;
   lower_hind_L <- create_bone "shin.L" upper_hind_L_tail
                     (mkVector (vx upper_hind_L_tail) (vy upper_hind_L_tail)
                               (min_z + 0.05 * height))
                     (Some upper_hind_L) ;;
   upper_hind_R_tail <- read upper_hind_R tail ;;
   lower_hind_R <- create_bone "shin.R" upper_hind_R_tail
                     (mkVector (vx upper_hind_R_tail) (vy upper_hind_R_tail)
                               (min_z + 0.05 * height))
                     (Some upper_hind_R) ;;
   lower_hind_L_tail <- read lower_hind_L tail ;;
   hind_foot_L <- create_bone "hind_foot.L" lower_hind_L_tail
                    (mkVector (vx lower_hind_L_tail) (vy lower_hind_L_tail)
                              min_z)
                    (Some lower_hind_L) ;;
   lower_hind_R_tail <- read lower_hind_R tail ;;
   hind_foot_R <- create_bone "hind_foot.R" lower_hind_R_tail
                    (mkVector (vx lower_hind_R_tail) (vy lower_hind_R_tail)
                              min_z)
                    (Some lower_hind_R) ;;
   ret tt)%edit.

(** Anchor coordinates (lines 109-122) and the choice of the branch
    (line 124). *)
Definition min_bb_world_of (world_mat : Matrix) (width length min_z : Q)
  : Vector :=
  let min_bb := mkVector (- width / 2) (- length / 2) min_z in
  mat_mul_vec world_mat min_bb.

Definition max_bb_world_of (world_mat : Matrix) (width length height min_z : Q)
  : Vector :=
  let max_bb := mkVector (width / 2) (length / 2) (height + min_z) in
  mat_mul_vec world_mat max_bb.

Definition pelvis_x_of (world_mat : Matrix) (width length height min_z : Q) : Q :=
  let min_bb_world := min_bb_world_of world_mat width length min_z in
  let max_bb_world := max_bb_world_of world_mat width length height min_z in
  (vx min_bb_world + vx max_bb_world) / 2.

Definition pelvis_y_of (world_mat : Matrix) (width length height min_z : Q) : Q :=
  let min_bb_world := min_bb_world_of world_mat width length min_z in
  let max_bb_world := max_bb_world_of world_mat width length height min_z in
  (vy min_bb_world + vy max_bb_world) / 2.

Definition rig_bones (world_mat : Matrix) (width length height min_z : Q)
           (is_quadruped : bool) : Edit unit :=
  let max_bb_world := max_bb_world_of world_mat width length height min_z in
  let pelvis_x := pelvis_x_of world_mat width length height min_z in
  let pelvis_y := pelvis_y_of world_mat width length height min_z in
  let pelvis_z := min_z + 0.7 * height in
  let pelvis_pos := mkVector pelvis_x pelvis_y pelvis_z in
  let head_pos := mkVector pelvis_x pelvis_y (vz max_bb_world) in
  if negb is_quadruped then
    humanoid_bones width length height min_z pelvis_x pelvis_pos head_pos
  else
    quadruped_bones width length height min_z pelvis_x pelvis_y
                    pelvis_pos head_pos max_bb_world.

(* ------------------------------------------------------------------ *)
(** ** [auto_rig_glb] from the dimensions to the end of bone creation
       (source lines 37-205) *)

(** What the code reads from the imported mesh object. *)
Record MeshObject : Type := mkMeshObject {
  dimensions : Vector;
  matrix_world : Matrix;
  vertices : list Vector
}.

(** Lines 85-205: a new armature is registered with the host and the bones
    are created in it. *)
Definition build_rig (world_mat : Matrix) (width length height min_z : Q)
           (is_quadruped : bool) (data : BlendData)
  : result (Armature * BlendData) :=
  (let (rig_data, data) := armatures_new "AutoRigArmature" data in
   let? edited :=
     rig_bones world_mat width length height min_z is_quadruped
               (edit_bones rig_data) in
   let arm := mkArmature (arm_name rig_data) (snd edited) in
   Ok (arm, removelast data ++ [arm]))%result.

Definition auto_rig_glb (mesh_obj : MeshObject) (data : BlendData)
  : result (Armature * BlendData) :=
  let height := vz (dimensions mesh_obj) in
  let length := vy (dimensions mesh_obj) in
  let width := vx (dimensions mesh_obj) in
  let world_mat := matrix_world mesh_obj in
  let verts := map (mat_mul_vec world_mat) (vertices mesh_obj) in
  (let? cls := classify height verts in
   build_rig world_mat width length height (min_z cls) (is_quadruped cls)
             data)%result.

(* ------------------------------------------------------------------ *)
(** ** The entry point (source lines 227-231) *)

(** [seq[i]] on a list. *)
Definition py_index {A : Type} (l : list A) (i : nat) : result A :=
  match nth_error l i with
  | Some a => Ok a
  | None => Raise IndexError
  end.

(** What the guard does next: print a line, or call [auto_rig_glb] on a
    path. *)
Inductive Action : Type :=
| Prints (msg : string)
| Call_auto_rig_glb (filepath : string).

(** The truth value of a string: false exactly for the empty one. *)
Definition truthy (s : string) : bool :=
  negb (String.eqb s EmptyString).

Definition main (argv : list string) : result Action :=
  (let? arg := py_index argv 1 in
   if negb (truthy arg)
   then Ok (Prints "Need filepath!")
   else Ok (Call_auto_rig_glb arg))%result.

(* ------------------------------------------------------------------ *)
(** ** Vocabulary of the statements *)

(** The name and the parent link of every bone, in order of creation. *)
Definition links (bones : list EditBone) : list (string * option BoneRef) :=
  map (fun bone => (name bone, parent bone)) bones.

(** The bone names of the two topologies, as the design lists them: the
    spine column, then arm and leg chains on both sides. *)
Definition humanoid_bone_names : list string :=
  ["Spine"; "Spine.001"; "Spine.002"; "Head";
   "upper_arm.L"; "lower_arm.L"; "upper_arm.R"; "lower_arm.R";
   "hand.L"; "hand.R";
   "thigh.L"; "thigh.R"; "shin.L"; "shin.R"; "foot.L"; "foot.R"]%string.

Definition quadruped_bone_names : list string :=
  ["Spine"; "Neck"; "Head";
   "upper_arm.L"; "upper_arm.R"; "lower_arm.L"; "lower_arm.R";
   "front_foot.L"; "front_foot.R";
   "thigh.L"; "thigh.R"; "shin.L"; "shin.R";
   "hind_foot.L"; "hind_foot.R"]%string.

Definition humanoid_links : list (string * option BoneRef) :=
  [("Spine", None); ("Spine.001", Some 0); ("Spine.002", Some 1);
   ("Head", Some 2);
   ("upper_arm.L", Some 1); ("lower_arm.L", Some 4);
   ("upper_arm.R", Some 1); ("lower_arm.R", Some 6);
   ("hand.L", Some 5); ("hand.R", Some 7);
   ("thigh.L", Some 0); ("thigh.R", Some 0);
   ("shin.L", Some 10); ("shin.R", Some 11);
   ("foot.L", Some 12); ("foot.R", Some 13)]%string%nat.

Definition quadruped_links : list (string * option BoneRef) :=
  [("Spine", None); ("Neck", Some 0); ("Head", Some 1);
   ("upper_arm.L", Some 0); ("upper_arm.R", Some 0);
   ("lower_arm.L", Some 3); ("lower_arm.R", Some 4);
   ("front_foot.L", Some 5); ("front_foot.R", Some 6);
   ("thigh.L", Some 0); ("thigh.R", Some 0);
   ("shin.L", Some 9); ("shin.R", Some 10);
   ("hind_foot.L", Some 11); ("hind_foot.R", Some 12)]%string%nat.

(** The body-type rule in the words of the design.  [ground_level verts g]:
    [g] is the lowest z of the vertex set.  The foot band reaches 5% of the
    height above it; a foot cluster is the part of the band on one side of
    x = 0.  [y_range_is S r]: [r] is the largest y of [S] minus its smallest
    (so [S] has a member). *)
Definition ground_level (verts : list Vector) (g : Q) : Prop :=
  (exists v, In v verts /\ vz v == g) /\ forall v, In v verts -> g <= vz v.

Definition in_foot_band (height g : Q) (v : Vector) : Prop :=
  vz v <= g + 0.05 * height.

Definition left_foot (height g : Q) (verts : list Vector) (v : Vector) : Prop :=
  In v verts /\ in_foot_band height g v /\ vx v < 0.

Definition right_foot (height g : Q) (verts : list Vector) (v : Vector) : Prop :=
  In v verts /\ in_foot_band height g v /\ 0 < vx v.

Definition y_range_is (S : Vector -> Prop) (r : Q) : Prop :=
  exists lo hi,
    S lo /\ S hi
    /\ (forall v, S v -> vy lo <= vy v /\ vy v <= vy hi)
    /\ r == vy hi - vy lo.

(** Both foot clusters have a member, and the y-range of each strictly
    exceeds 0.3 times the y-range of the whole mesh. *)
Definition wide_stance (height : Q) (verts : list Vector) : Prop :=
  exists g left_y_range right_y_range total_y_range,
    ground_level verts g
    /\ (exists v, left_foot height g verts v)
    /\ (exists v, right_foot height g verts v)
    /\ y_range_is (left_foot height g verts) left_y_range
    /\ y_range_is (right_foot height g verts) right_y_range
    /\ y_range_is (fun v => In v verts) total_y_range
    /\ 0.3 * total_y_range < left_y_range
    /\ 0.3 * total_y_range < right_y_range.

(** Does a name contain the delimiter? *)
Fixpoint has_delim (s : string) : bool :=
  match s with
  | EmptyString => false
  | String c rest => Ascii.eqb c delim || has_delim rest
  end.

(** Parent-first order: a parent link points to a bone created strictly
    earlier. *)
Definition parents_first (bones : list EditBone) : Prop :=
  forall i bone p,
    nth_error bones i = Some bone -> parent bone = Some p -> (p < i)%nat.

(** One bone, of the given name, has no parent. *)
Definition single_root (root_name : string) (bones : list EditBone) : Prop :=
  exists r root,
    nth_error bones r = Some root
    /\ name root = root_name
    /\ parent root = None
    /\ forall i bone,
         nth_error bones i = Some bone -> parent bone = None -> i = r.

(** The check of [parents_first] on the links, the first of them being
    bone number [k]. *)
Fixpoint parents_firstb (k : nat) (ls : list (string * option BoneRef)) : bool :=
  match ls with
  | [] => true
  | (_, p) :: rest =>
      match p with
      | Some p => (p <? k)%nat
      | None => true
      end && parents_firstb (S k) rest
  end.

(* ------------------------------------------------------------------ *)
(** ** Vocabulary of the statements on floats *)

(** The number a float stands for (0 for what is not a finite number). *)
Definition float_to_Q (x : float) : Q :=
  match Prim2SF x with
  | S754_finite s m e =>
      (if s then - inject_Z (Z.pos m) else inject_Z (Z.pos m)) * 2 ^ e
  | _ => 0
  end.

Definition exact (v : FVector) : Vector :=
  mkVector (float_to_Q (fx v)) (float_to_Q (fy v)) (float_to_Q (fz v)).

(** The rule on floats: comparisons are the program's [<=] and [<], the
    y-range of a set is the rounded difference of its largest and smallest
    y, and the threshold is the rounded product. *)
Definition f_le (x y : float) : Prop := PrimFloat.leb x y = true.
Definition f_lt (x y : float) : Prop := PrimFloat.ltb x y = true.

Definition no_nan (v : FVector) : Prop :=
  PrimFloat.is_nan (fx v) = false
  /\ PrimFloat.is_nan (fy v) = false
  /\ PrimFloat.is_nan (fz v) = false.

Definition ground_level_f (verts : list FVector) (g : float) : Prop :=
  (exists v, In v verts /\ fz v = g) /\ forall v, In v verts -> f_le g (fz v).

Definition in_foot_band_f (height g : float) (v : FVector) : Prop :=
  f_le (fz v) (g + 0.05 * height)%float.

Definition left_foot_f (height g : float) (verts : list FVector) (v : FVector)
  : Prop :=
  In v verts /\ in_foot_band_f height g v /\ f_lt (fx v) 0%float.

Definition right_foot_f (height g : float) (verts : list FVector) (v : FVector)
  : Prop :=
  In v verts /\ in_foot_band_f height g v /\ f_lt 0%float (fx v).

Definition y_range_is_f (S : FVector -> Prop) (r : float) : Prop :=
  exists lo hi,
    S lo /\ S hi
    /\ (forall v, S v -> f_le (fy lo) (fy v) /\ f_le (fy v) (fy hi))
    /\ r = (fy hi - fy lo)%float.

Definition wide_stance_f (height : float) (verts : list FVector) : Prop :=
  exists g left_y_range right_y_range total_y_range,
    ground_level_f verts g
    /\ (exists v, left_foot_f height g verts v)
    /\ (exists v, right_foot_f height g verts v)
    /\ y_range_is_f (left_foot_f height g verts) left_y_range
    /\ y_range_is_f (right_foot_f height g verts) right_y_range
    /\ y_range_is_f (fun v => In v verts) total_y_range
    /\ f_lt (0.3 * total_y_range)%float left_y_range
    /\ f_lt (0.3 * total_y_range)%float right_y_range.

(** Order of the finite and infinite floats, as a triple compared
    lexicographically: sign class, then exponent, then mantissa. *)
Definition sf_key (f : spec_float) : Z * Z * Z :=
  match f with
  | S754_zero _ => (0, 0, 0)%Z
  | S754_infinity false => (2, 0, 0)%Z
  | S754_infinity true => (-2, 0, 0)%Z
  | S754_nan => (3, 0, 0)%Z
  | S754_finite false m e => (1, e, Z.pos m)%Z
  | S754_finite true m e => (-1, - e, - Z.pos m)%Z
  end.

Definition key_le (a b : Z * Z * Z) : Prop :=
  let '(a1, a2, a3) := a in
  let '(b1, b2, b3) := b in
  (a1 < b1 \/ (a1 = b1 /\ (a2 < b2 \/ (a2 = b2 /\ a3 <= b3))))%Z.

Definition key_lt (a b : Z * Z * Z) : Prop :=
  let '(a1, a2, a3) := a in
  let '(b1, b2, b3) := b in
  (a1 < b1 \/ (a1 = b1 /\ (a2 < b2 \/ (a2 = b2 /\ a3 < b3))))%Z.

(** Equal as numbers: the same float, or two zeros. *)
Definition same_number (x y : float) : Prop :=
  x = y \/ (exists s s', Prim2SF x = S754_zero s /\ Prim2SF y = S754_zero s').

(** The cases of a comparison of two keys. *)
Ltac key_goal :=
  repeat split; intros H; try discriminate H; try reflexivity;
  try (subst; reflexivity); try lia; try (injection H; intros; lia).





(* ------------------------------------------------------------------ *)
(** ** The whole of [auto_rig_glb] (source lines 5-35 and 206-224)

    Around the analysis and the bone placement the function imports the
    file, picks the first selected object of type MESH, prints what it does
    and exports the result.  The host operations in between (selection,
    [transform_apply], mode switches, [parent_set]) are taken to succeed;
    what the code reads from the mesh after [transform_apply] is the
    [MeshObject] an object carries. *)

(** An object of [bpy.context.selected_objects]: its [type] and what lines
    38-48 read from it. *)
Record SceneObject : Type := mkSceneObject {
  obj_type : string;
  as_mesh : MeshObject
}.

(** What [bpy.ops.import_scene.gltf] does: it raises (with the text [str(e)]
    of the exception), or it leaves the imported objects selected. *)
Inductive ImportOutcome : Type :=
| Import_raises (e : string)
| Import_selects (selected_objects : list SceneObject).

(** What a call leaves behind: the value returned, the lines printed, the
    armatures of the host and the file exported, if any. *)
Record Outcome : Type := mkOutcome {
  returned : option Armature;
  printed : list string;
  blend_data : BlendData;
  exported : option string
}.

Definition char_type_name (c : CharType) : string :=
  match c with
  | Humanoid => "Humanoid"
  | Quadruped => "Quadruped"
  end.

(** Lines 29-224, once the list of imported meshes is known not to be
    empty.  [objects] are the names of [bpy.data.objects] when the rig object
    is created (line 87); the function ends without a [return] statement, so
    a completed run returns [None] as well. *)
Definition rig_first_mesh (objects : list string) (data : BlendData)
           (imported_objs : list SceneObject) : result Outcome :=
  (let? obj := py_index imported_objs 0 in
   let mesh_obj := as_mesh obj in
   let height := vz (dimensions mesh_obj) in
   let length := vy (dimensions mesh_obj) in
   let width := vx (dimensions mesh_obj) in
   let world_mat := matrix_world mesh_obj in
   let verts := map (mat_mul_vec world_mat) (vertices mesh_obj) in
   let? cls := classify height verts in
   let detected :=
     String.append "Detected character type: "
                   (char_type_name (char_type cls)) in
   let rig_obj_name := unique_name objects "Object" "AutoRigArmature" in
   let? built :=
     build_rig world_mat width length height (min_z cls)
               (is_quadruped cls) data in
   let complete :=
     String.append "Rigging complete. Created armature: " rig_obj_name in
   Ok (mkOutcome None [detected; complete] (snd built)
                 (Some "dog.fbx"%string)))%result.

(** Lines 13-28: the import and the choice of the mesh, with the two early
    returns. *)
Definition auto_rig_glb_script (filepath : string) (import : ImportOutcome)
           (objects : list string) (data : BlendData) : result Outcome :=
  match import with
  | Import_raises e =>
      Ok (mkOutcome None
            [String.append "Failed to import "
               (String.append filepath (String.append ": " e))]
            data None)
  | Import_selects selected_objects =>
      let imported_objs :=
        filter (fun obj => String.eqb (obj_type obj) "MESH") selected_objects in
      if negb (nonempty imported_objs) then
        Ok (mkOutcome None ["No mesh found in imported file."%string] data None)
      else rig_first_mesh objects data imported_objs
  end.

(* ------------------------------------------------------------------ *)
(** ** Vocabulary of the further statements *)

(** An axis-aligned change of coordinates: x scaled (and mirrored when
    [s < 0]), y and z scaled and shifted. *)
Definition axis_map (s c dy a dz : Q) (v : Vector) : Vector :=
  mkVector (s * vx v) (c * vy v + dy) (a * vz v + dz).

(** [w] has the coordinates [axis_map] gives to [v], as numbers. *)
Definition axis_related (s c dy a dz : Q) (v w : Vector) : Prop :=
  vx w == s * vx v /\ vy w == c * vy v + dy /\ vz w == a * vz v + dz.

(** The world matrix of an object that is only moved, by [t]. *)
Definition translation_matrix (t : Vector) : Matrix :=
  mkMatrix (mkRow4 1 0 0 (vx t)) (mkRow4 0 1 0 (vy t)) (mkRow4 0 0 1 (vz t))
           (mkRow4 0 0 0 1).

(** A bone that has a parent starts where the parent ends. *)
Definition joined_to_parent (bones : list EditBone) (bone : EditBone) : Prop :=
  match parent bone with
  | Some p =>
      match nth_error bones p with
      | Some parent_bone => head bone = tail parent_bone
      | None => False
      end
  | None => True
  end.

(** Two bones are mirror images of each other in the plane x = [axis]. *)
Definition mirrored (axis : Q) (l r : EditBone) : Prop :=
  vx (head l) + vx (head r) == 2 * axis
  /\ vy (head l) == vy (head r) /\ vz (head l) == vz (head r)
  /\ vx (tail l) + vx (tail r) == 2 * axis
  /\ vy (tail l) == vy (tail r) /\ vz (tail l) == vz (tail r).

(** The skeleton has a bone [base.L] and a bone [base.R], mirror images of
    each other. *)
Definition mirror_pair (axis : Q) (bones : list EditBone) (base : string)
  : Prop :=
  exists l r,
    In l bones /\ In r bones
    /\ name l = String.append base ".L"
    /\ name r = String.append base ".R"
    /\ mirrored axis l r.

Definition has_suffix (suffix s : string) : bool :=
  String.eqb (substring (String.length s - String.length suffix)
                        (String.length suffix) s)
             suffix.

(** A bone both ends of which have the same x and y. *)
Definition vertical (bone : EditBone) : Prop :=
  vx (head bone) == vx (tail bone) /\ vy (head bone) == vy (tail bone).

(** Well-formed skeleton: parents come first and names are unique. *)
Definition skeleton_ok (bones : list EditBone) : Prop :=
  parents_first bones /\ NoDup (bone_names bones).

(** The bones that do not start at the end of their parent. *)
Definition humanoid_detached : list string :=
  ["upper_arm.L"; "upper_arm.R"; "thigh.L"; "thigh.R"]%string.

Definition quadruped_detached : list string :=
  ["Neck"; "upper_arm.L"; "upper_arm.R"; "thigh.L"; "thigh.R"]%string.

(** The limb segments, each present on both sides. *)
Definition humanoid_limbs : list string :=
  ["upper_arm"; "lower_arm"; "hand"; "thigh"; "shin"; "foot"]%string.

Definition quadruped_limbs : list string :=
  ["upper_arm"; "lower_arm"; "front_foot"; "thigh"; "shin"; "hind_foot"]%string.

Definition foot_names : list string :=
  ["foot.L"; "foot.R"; "front_foot.L"; "front_foot.R";
   "hind_foot.L"; "hind_foot.R"]%string.

(** The bones that are not vertical. *)
Definition humanoid_slanted : list string := ["foot.L"; "foot.R"]%string.
Definition quadruped_slanted : list string := ["Spine"; "Head"]%string.

(** A property of every bone of an explicit skeleton, bone by bone. *)
Ltac each_bone tac :=
  repeat (apply Forall_cons; [lazy beta; tac|]); apply Forall_nil.

(** Membership of a name in an explicit list of names. *)
Ltac name_listed :=
  cbn; repeat (first [left; reflexivity | right]); fail.

(** The two bones at positions [i] and [j] form a mirror pair. *)
Ltac mirror_at i j :=
  eexists; eexists;
  split; [apply (nth_error_In _ i); reflexivity|];
  split; [apply (nth_error_In _ j); reflexivity|];
  split; [reflexivity|]; split; [reflexivity|];
  unfold mirrored; cbn [head tail vx vy vz]; repeat split; lra.


(** Reduction of the bone-building code with the arithmetic left alone. *)
Ltac run_edit :=
  cbv -[Qplus Qmult Qminus Qdiv Qopp Qinv Qeq Qle Qlt
        pelvis_x_of pelvis_y_of max_bb_world_of min_bb_world_of].

(* ------------------------------------------------------------------ *)
(** ** [min], [max] and the y-range *)

Lemma Qlt_bool_iff (x y : Q) : Qlt_bool x y = true <-> x < y.
Proof.
  unfold Qlt_bool, Qlt. apply Z.ltb_lt.
Qed.

Lemma Qlt_bool_false (x y : Q) : Qlt_bool x y = false <-> y <= x.
Proof.
  unfold Qlt_bool, Qle. rewrite Z.ltb_ge. reflexivity.
Qed.

Lemma fold_min_spec (rest : list Q) :
  forall x,
    let m := fold_left (fun cur item => if Qlt_bool item cur then item else cur)
                       rest x in
    In m (x :: rest) /\ forall y, In y (x :: rest) -> m <= y.
Proof.
  induction rest as [|a rest IH]; intros x; cbn [fold_left].
  - split; [now left|]. intros y [<-|[]]. apply Qle_refl.
  - destruct (Qlt_bool a x) eqn:Hax.
    + apply Qlt_bool_iff in Hax.
      destruct (IH a) as [Hin Hle]. split.
      * destruct Hin as [<-|Hin]; [right; now left | right; now right].
      * intros y [<-|[<-|Hy]].
        -- apply Qle_trans with a; [apply Hle; now left | now apply Qlt_le_weak].
        -- apply Hle; now left.
        -- apply Hle; now right.
    + apply Qlt_bool_false in Hax.
      destruct (IH x) as [Hin Hle]. split.
      * destruct Hin as [<-|Hin]; [now left | right; now right].
      * intros y [<-|[<-|Hy]].
        -- apply Hle; now left.
        -- apply Qle_trans with x; [apply Hle; now left | exact Hax].
        -- apply Hle; now right.
Qed.

Lemma fold_max_spec (rest : list Q) :
  forall x,
    let m := fold_left (fun cur item => if Qlt_bool cur item then item else cur)
                       rest x in
    In m (x :: rest) /\ forall y, In y (x :: rest) -> y <= m.
Proof.
  induction rest as [|a rest IH]; intros x; cbn [fold_left].
  - split; [now left|]. intros y [<-|[]]. apply Qle_refl.
  - destruct (Qlt_bool x a) eqn:Hax.
    + apply Qlt_bool_iff in Hax.
      destruct (IH a) as [Hin Hle]. split.
      * destruct Hin as [<-|Hin]; [right; now left | right; now right].
      * intros y [<-|[<-|Hy]].
        -- apply Qle_trans with a; [now apply Qlt_le_weak | apply Hle; now left].
        -- apply Hle; now left.
        -- apply Hle; now right.
    + apply Qlt_bool_false in Hax.
      destruct (IH x) as [Hin Hle]. split.
      * destruct Hin as [<-|Hin]; [now left | right; now right].
      * intros y [<-|[<-|Hy]].
        -- apply Hle; now left.
        -- apply Qle_trans with x; [exact Hax | apply Hle; now left].
        -- apply Hle; now right.
Qed.

Lemma py_min_spec (l : list Q) :
  l <> [] ->
  exists m, py_min l = Ok m /\ In m l /\ forall y, In y l -> m <= y.
Proof.
  destruct l as [|x rest]; [congruence|]. intros _.
  eexists. split; [reflexivity|]. apply fold_min_spec.
Qed.

Lemma py_max_spec (l : list Q) :
  l <> [] ->
  exists m, py_max l = Ok m /\ In m l /\ forall y, In y l -> y <= m.
Proof.
  destruct l as [|x rest]; [congruence|]. intros _.
  eexists. split; [reflexivity|]. apply fold_max_spec.
Qed.

Lemma map_nonempty {A B : Type} (f : A -> B) (l : list A) :
  l <> [] -> map f l <> [].
Proof.
  destruct l; [congruence | discriminate].
Qed.

Lemma nonempty_true {A : Type} (l : list A) :
  nonempty l = true <-> l <> [].
Proof.
  destruct l; cbn; split; congruence.
Qed.

Lemma nonempty_In {A : Type} (l : list A) :
  nonempty l = true <-> exists a, In a l.
Proof.
  destruct l as [|a l]; cbn; split; try congruence.
  - intros [a []].
  - intros _. exists a. now left.
Qed.

Lemma y_range_spec (vs : list Vector) :
  vs <> [] ->
  exists r, y_range vs = Ok r /\ y_range_is (fun v => In v vs) r.
Proof.
  intros Hne. unfold y_range.
  destruct (py_max_spec (map vy vs) (map_nonempty vy vs Hne))
    as [hi [Hhi [Hin_hi Hle_hi]]].
  destruct (py_min_spec (map vy vs) (map_nonempty vy vs Hne))
    as [lo [Hlo [Hin_lo Hle_lo]]].
  rewrite Hhi, Hlo. cbn [rbind].
  exists (hi - lo). split; [reflexivity|].
  apply in_map_iff in Hin_hi as [vhi [Ehi Hvhi]].
  apply in_map_iff in Hin_lo as [vlo [Elo Hvlo]].
  exists vlo, vhi. repeat split; trivial.
  - rewrite Elo. apply Hle_lo. now apply in_map.
  - rewrite Ehi. apply Hle_hi. now apply in_map.
  - rewrite Ehi, Elo. reflexivity.
Qed.

Lemma y_range_is_ext (S S' : Vector -> Prop) (r : Q) :
  (forall v, S v <-> S' v) -> y_range_is S r -> y_range_is S' r.
Proof.
  intros Hext [lo [hi [Hlo [Hhi [Hb Hr]]]]].
  exists lo, hi. repeat split; try (now apply Hext); try exact Hr.
  - apply Hb. now apply Hext.
  - apply Hb. now apply Hext.
Qed.

Lemma y_range_is_unique (S : Vector -> Prop) (r r' : Q) :
  y_range_is S r -> y_range_is S r' -> r == r'.
Proof.
  intros [lo [hi [Hlo [Hhi [Hb Hr]]]]] [lo' [hi' [Hlo' [Hhi' [Hb' Hr']]]]].
  destruct (Hb lo' Hlo') as [A1 A2]. destruct (Hb hi' Hhi') as [A3 A4].
  destruct (Hb' lo Hlo) as [B1 B2]. destruct (Hb' hi Hhi) as [B3 B4].
  lra.
Qed.

Lemma ground_level_unique (verts : list Vector) (g g' : Q) :
  ground_level verts g -> ground_level verts g' -> g == g'.
Proof.
  intros [[v [Hv Ev]] Hle] [[v' [Hv' Ev']] Hle'].
  specialize (Hle v' Hv'). specialize (Hle' v Hv). lra.
Qed.

Lemma py_min_ground_level (verts : list Vector) :
  verts <> [] ->
  exists g, py_min (map vz verts) = Ok g /\ ground_level verts g.
Proof.
  intros Hne.
  destruct (py_min_spec (map vz verts) (map_nonempty vz verts Hne))
    as [g [Hg [Hin Hle]]].
  exists g. split; [exact Hg|]. split.
  - apply in_map_iff in Hin as [v [Ev Hv]]. exists v. split; [exact Hv|].
    rewrite Ev. reflexivity.
  - intros v Hv. apply Hle. now apply in_map.
Qed.

Lemma ground_level_members (verts verts' : list Vector) (g : Q) :
  (forall v, In v verts <-> In v verts') ->
  ground_level verts g -> ground_level verts' g.
Proof.
  intros Hm [[v [Hv Ev]] Hle]. split.
  - exists v. split; [now apply Hm | exact Ev].
  - intros w Hw. apply Hle. now apply Hm.
Qed.

Lemma Permutation_members {A : Type} (l l' : list A) :
  Permutation l l' -> forall a, In a l <-> In a l'.
Proof.
  intros HP a. split.
  - now apply Permutation_in.
  - apply Permutation_in. now apply Permutation_sym.
Qed.

(* ------------------------------------------------------------------ *)
(** ** The analysis against the rule *)

Section Analysis.

Variable height : Q.

Lemma left_foot_verts_In (g : Q) (verts : list Vector) (v : Vector) :
  In v (left_foot_verts_of (foot_verts_of height g verts))
  <-> left_foot height g verts v.
Proof.
  unfold left_foot_verts_of, foot_verts_of, left_foot, in_foot_band.
  rewrite !filter_In, Qle_bool_iff, Qlt_bool_iff. tauto.
Qed.

Lemma right_foot_verts_In (g : Q) (verts : list Vector) (v : Vector) :
  In v (right_foot_verts_of (foot_verts_of height g verts))
  <-> right_foot height g verts v.
Proof.
  unfold right_foot_verts_of, foot_verts_of, right_foot, in_foot_band.
  rewrite !filter_In, Qle_bool_iff, Qlt_bool_iff. tauto.
Qed.

Lemma left_foot_ground (g g' : Q) (verts : list Vector) (v : Vector) :
  g == g' -> left_foot height g verts v <-> left_foot height g' verts v.
Proof.
  intros E. unfold left_foot, in_foot_band. rewrite E. reflexivity.
Qed.

Lemma right_foot_ground (g g' : Q) (verts : list Vector) (v : Vector) :
  g == g' -> right_foot height g verts v <-> right_foot height g' verts v.
Proof.
  intros E. unfold right_foot, in_foot_band. rewrite E. reflexivity.
Qed.

(** With the ground level and the three y-ranges the code computes, the rule
    is the comparison of line 75. *)
Lemma wide_stance_computed (g lr rr tr : Q) (verts : list Vector) :
  ground_level verts g ->
  y_range_is (left_foot height g verts) lr ->
  y_range_is (right_foot height g verts) rr ->
  y_range_is (fun v => In v verts) tr ->
  wide_stance height verts <-> 0.3 * tr < lr /\ 0.3 * tr < rr.
Proof.
  intros Hg Hl Hr Ht. split.
  - intros [g' [lr' [rr' [tr' [Hg' [_ [_ [Hl' [Hr' [Ht' [H1 H2]]]]]]]]]]].
    pose proof (ground_level_unique _ _ _ Hg' Hg) as Eg.
    apply (y_range_is_ext _ _ _ (fun v => left_foot_ground g' g verts v Eg))
      in Hl'.
    apply (y_range_is_ext _ _ _ (fun v => right_foot_ground g' g verts v Eg))
      in Hr'.
    pose proof (y_range_is_unique _ _ _ Hl Hl') as El.
    pose proof (y_range_is_unique _ _ _ Hr Hr') as Er.
    pose proof (y_range_is_unique _ _ _ Ht Ht') as Et.
    split; lra.
  - intros [H1 H2]. exists g, lr, rr, tr.
    split; [exact Hg|].
    split; [destruct Hl as [lo [_ [Hlo _]]]; now exists lo|].
    split; [destruct Hr as [lo [_ [Hlo _]]]; now exists lo|].
    repeat (split; [assumption|]). assumption.
Qed.

Lemma wide_stance_clusters (g : Q) (verts : list Vector) :
  ground_level verts g ->
  wide_stance height verts ->
  nonempty (left_foot_verts_of (foot_verts_of height g verts)) = true
  /\ nonempty (right_foot_verts_of (foot_verts_of height g verts)) = true.
Proof.
  intros Hg [g' [lr [rr [tr [Hg' [[vl Hvl] [[vr Hvr] _]]]]]]].
  pose proof (ground_level_unique _ _ _ Hg' Hg) as Eg.
  split; apply nonempty_In.
  - exists vl. apply left_foot_verts_In.
    now apply (left_foot_ground g' g verts vl Eg).
  - exists vr. apply right_foot_verts_In.
    now apply (right_foot_ground g' g verts vr Eg).
Qed.

Lemma wide_stance_members (verts verts' : list Vector) :
  (forall v, In v verts <-> In v verts') ->
  wide_stance height verts -> wide_stance height verts'.
Proof.
  intros Hm [g [lr [rr [tr [Hg [[vl Hvl] [[vr Hvr] [Hl [Hr [Ht [H1 H2]]]]]]]]]]].
  assert (HL : forall v, left_foot height g verts v <-> left_foot height g verts' v).
  { intros v. unfold left_foot. rewrite (Hm v). reflexivity. }
  assert (HR : forall v, right_foot height g verts v <-> right_foot height g verts' v).
  { intros v. unfold right_foot. rewrite (Hm v). reflexivity. }
  exists g, lr, rr, tr.
  split; [now apply (ground_level_members verts)|].
  split; [exists vl; now apply HL|].
  split; [exists vr; now apply HR|].
  split; [now apply (y_range_is_ext _ _ _ HL)|].
  split; [now apply (y_range_is_ext _ _ _ HR)|].
  split; [now apply (y_range_is_ext _ _ _ Hm)|].
  split; assumption.
Qed.

Lemma classify_sound (verts : list Vector) :
  verts <> [] ->
  exists cls,
    classify height verts = Ok cls
    /\ ground_level verts (min_z cls)
    /\ (is_quadruped cls = true <-> wide_stance height verts)
    /\ char_type cls = (if is_quadruped cls then Quadruped else Humanoid).
Proof.
  intros Hne.
  destruct (py_min_ground_level verts Hne) as [g [Hg Hgl]].
  unfold classify.
  rewrite (proj2 (nonempty_true verts) Hne), Hg. cbn [rbind].
  set (left := left_foot_verts_of (foot_verts_of height g verts)).
  set (right := right_foot_verts_of (foot_verts_of height g verts)).
  destruct (nonempty left && nonempty right) eqn:Hboth.
  - apply andb_prop in Hboth as [HL HR]. rewrite HL, HR.
    destruct (y_range_spec left (proj1 (nonempty_true left) HL))
      as [lr [Elr Hlr]].
    destruct (y_range_spec right (proj1 (nonempty_true right) HR))
      as [rr [Err Hrr]].
    destruct (y_range_spec verts Hne) as [tr [Etr Htr]].
    rewrite Elr, Err, Etr. cbn [rbind].
    apply (y_range_is_ext _ (left_foot height g verts)) in Hlr;
      [|intros v; apply left_foot_verts_In].
    apply (y_range_is_ext _ (right_foot height g verts)) in Hrr;
      [|intros v; apply right_foot_verts_In].
    pose proof (wide_stance_computed g lr rr tr verts Hgl Hlr Hrr Htr)
      as Hrule.
    destruct (Qlt_bool (0.3 * tr) lr && Qlt_bool (0.3 * tr) rr) eqn:Hcmp;
      cbn [rbind]; eexists; (split; [reflexivity|]);
      cbn [min_z is_quadruped char_type];
      (split; [exact Hgl|]); (split; [|reflexivity]).
    + apply andb_prop in Hcmp as [H1 H2].
      apply Qlt_bool_iff in H1. apply Qlt_bool_iff in H2.
      split; [intros _; apply Hrule; now split | reflexivity].
    + split; [discriminate|]. intros Hw. apply Hrule in Hw as [H1 H2].
      apply Qlt_bool_iff in H1. apply Qlt_bool_iff in H2.
      rewrite H1, H2 in Hcmp. discriminate Hcmp.
  - assert (Hfeet : (3 <=? num_feet_of left right)%nat = false).
    { unfold num_feet_of.
      destruct (nonempty left), (nonempty right); reflexivity. }
    rewrite Hfeet. cbn [rbind]. eexists. split; [reflexivity|].
    cbn [min_z is_quadruped char_type].
    split; [exact Hgl|]. split; [|reflexivity].
    split; [discriminate|]. intros Hw.
    destruct (wide_stance_clusters g verts Hgl Hw) as [HL HR].
    fold left in HL. fold right in HR. rewrite HL, HR in Hboth.
    discriminate Hboth.
Qed.

(** The rule in exact arithmetic: run on rationals, the analysis of a
    non-empty vertex sequence returns, with the lowest z as ground level,
    and it sets the flag, and says Quadruped, exactly when both foot clusters
    have a member and the y-range of each strictly exceeds 0.3 times the
    y-range of the whole mesh. *)
Lemma classify_exact_rule (verts : list Vector) :
  verts <> [] ->
  exists cls,
    classify height verts = Ok cls
    /\ ground_level verts (min_z cls)
    /\ (is_quadruped cls = true <-> wide_stance height verts)
    /\ (char_type cls = Quadruped <-> wide_stance height verts)
    /\ (char_type cls = Humanoid <-> ~ wide_stance height verts).
Proof.
  intros Hne.
  destruct (classify_sound verts Hne) as [cls [Hc [Hg [Hq Ht]]]].
  exists cls. split; [exact Hc|]. split; [exact Hg|]. split; [exact Hq|].
  rewrite Ht. destruct (is_quadruped cls).
  - assert (Hw : wide_stance height verts) by now apply Hq.
    split; split; intros H; try exact Hw; try reflexivity.
    + discriminate H.
    + contradiction.
  - assert (Hn : ~ wide_stance height verts).
    { intros Hw. apply Hq in Hw. discriminate Hw. }
    split; split; intros H; try exact Hn; try reflexivity.
    + discriminate H.
    + contradiction.
Qed.

Lemma classify_empty :
  classify height [] = Ok (mkClassification 0.0 false Humanoid).
Proof.
  reflexivity.
Qed.

Lemma classify_total (verts : list Vector) :
  exists cls, classify height verts = Ok cls.
Proof.
  destruct verts as [|v verts].
  - eexists. apply classify_empty.
  - destruct (classify_sound (v :: verts)) as [cls [Hc _]];
      [discriminate|].
    now exists cls.
Qed.

(** C3, amended: if the vertex sequence is empty the analysis does not fail;
    the guard of line 51 takes 0.0 for the ground level and the body type is
    Humanoid, whatever the height.  No vertex sequence at all makes the
    analysis raise [EmptyMeshError]. *)
Theorem classify_empty_defaults :
  classify height [] = Ok (mkClassification 0.0 false Humanoid)
  /\ forall verts, classify height verts <> Raise EmptyMeshError.
Proof.
  split.
  - apply classify_empty.
  - intros verts Hraise.
    destruct (classify_total verts) as [cls Hc].
    rewrite Hc in Hraise. discriminate Hraise.
Qed.

(** C10: the analysis does not depend on the order of the vertices.  For a
    non-empty vertex sequence and any reordering of it, both runs return,
    their body types are the same and their ground levels are the same
    number. *)
Theorem classify_permutation (verts verts' : list Vector) :
  Permutation verts verts' ->
  verts <> [] ->
  exists cls cls',
    classify height verts = Ok cls
    /\ classify height verts' = Ok cls'
    /\ char_type cls = char_type cls'
    /\ is_quadruped cls = is_quadruped cls'
    /\ min_z cls == min_z cls'.
Proof.
  intros HP Hne.
  assert (Hne' : verts' <> []).
  { intros ->. apply Permutation_sym, Permutation_nil in HP. contradiction. }
  pose proof (Permutation_members _ _ HP) as Hm.
  destruct (classify_sound verts Hne) as [cls [Hc [Hg [Hq Ht]]]].
  destruct (classify_sound verts' Hne') as [cls' [Hc' [Hg' [Hq' Ht']]]].
  exists cls, cls'. split; [exact Hc|]. split; [exact Hc'|].
  assert (Eq : is_quadruped cls = is_quadruped cls').
  { destruct (is_quadruped cls) eqn:E, (is_quadruped cls') eqn:E';
      trivial.
    - symmetry. apply Hq'. apply (wide_stance_members verts); trivial.
      now apply Hq.
    - apply Hq. apply (wide_stance_members verts').
      + intros v. symmetry. apply Hm.
      + now apply Hq'. }
  split; [rewrite Ht, Ht', Eq; reflexivity|]. split; [exact Eq|].
  apply (ground_level_unique verts); trivial.
  apply (ground_level_members verts'); trivial.
  intros v. symmetry. apply Hm.
Qed.

End Analysis.

Example classify_exact_rule_dog :
  let verts := [mkVector (-0.2) (-1) 0; mkVector (-0.2) 1 0;
                mkVector 0.2 (-1) 0; mkVector 0.2 1 0; mkVector 0 0 1] in
  verts <> []
  /\ exists cls,
       classify 1 verts = Ok cls
       /\ ground_level verts (min_z cls)
       /\ (is_quadruped cls = true <-> wide_stance 1 verts)
       /\ (char_type cls = Quadruped <-> wide_stance 1 verts)
       /\ (char_type cls = Humanoid <-> ~ wide_stance 1 verts).
Proof.
  intros verts. split; [discriminate|].
  apply (classify_exact_rule 1 verts). discriminate.
Qed.

Lemma classify_permutation_witness :
  let verts := [mkVector (-0.2) (-1) 0; mkVector 0.2 1 0; mkVector 0 0 1] in
  let verts' := [mkVector 0.2 1 0; mkVector 0 0 1; mkVector (-0.2) (-1) 0] in
  Permutation verts verts'
  /\ verts <> []
  /\ exists cls cls',
       classify 1 verts = Ok cls
       /\ classify 1 verts' = Ok cls'
       /\ char_type cls = char_type cls'
       /\ is_quadruped cls = is_quadruped cls'
       /\ min_z cls == min_z cls'.
Proof.
  intros verts verts'.
  assert (HP : Permutation verts verts').
  { unfold verts, verts'.
    apply Permutation_trans with
      [mkVector 0.2 1 0; mkVector (-0.2) (-1) 0; mkVector 0 0 1].
    - apply perm_swap.
    - apply perm_skip. apply perm_swap. }
  split; [exact HP|]. split; [discriminate|].
  apply (classify_permutation 1 verts verts' HP). discriminate.
Defined.

(** C3, as stated, fails: on the empty vertex sequence the analysis does not
    raise [EmptyMeshError]; it returns a ground level and a body type. *)
Lemma classify_empty_returns :
  classify 2 [] <> Raise EmptyMeshError
  /\ classify 2 [] = Ok (mkClassification 0.0 false Humanoid).
Proof.
  split; [discriminate | reflexivity].
Qed.

Example classify_biped :
  classify 2 [mkVector (-0.2) 0 0; mkVector 0.2 0.1 0; mkVector 0 0 2]
  = Ok (mkClassification 0 false Humanoid).
Proof. reflexivity. Qed.

Example classify_dog :
  classify 1 [mkVector (-0.2) (-1) 0; mkVector (-0.2) 1 0;
              mkVector 0.2 (-1) 0; mkVector 0.2 1 0; mkVector 0 0 1]
  = Ok (mkClassification 0 true Quadruped).
Proof. reflexivity. Qed.

Example classify_left_only :
  classify 2 [mkVector (-0.5) (-1) 0; mkVector (-0.5) 1 0; mkVector 0.5 1 2]
  = Ok (mkClassification 0 false Humanoid).
Proof. reflexivity. Qed.

(* ------------------------------------------------------------------ *)
(** ** Order of binary64 floats *)

Lemma sf_compare_key (a b : spec_float) :
  a <> S754_nan -> b <> S754_nan ->
  exists c, SFcompare a b = Some c
            /\ (c = Lt <-> key_lt (sf_key a) (sf_key b))
            /\ (c = Eq <-> sf_key a = sf_key b)
            /\ (c = Gt <-> key_lt (sf_key b) (sf_key a)).
Proof.
  intros Ha Hb.
  destruct a as [sa|sa| |sa ma ea], b as [sb|sb| |sb mb eb];
    try congruence;
    try destruct sa; try destruct sb; cbn [SFcompare sf_key key_lt];
    eexists; (split; [reflexivity|]);
    try (key_goal; fail).
  - change (Pos.compare_cont Eq ma mb) with (Pos.compare ma mb).
    destruct (Z.compare_spec ea eb) as [E|L|G];
      [destruct (Pos.compare_spec ma mb) as [Em|Lm|Gm]| |];
      cbn [CompOpp]; key_goal.
  - change (Pos.compare_cont Eq ma mb) with (Pos.compare ma mb).
    destruct (Z.compare_spec ea eb) as [E|L|G];
      [destruct (Pos.compare_spec ma mb) as [Em|Lm|Gm]| |];
      cbn [CompOpp]; key_goal.
Qed.

Lemma is_nan_spec (x : float) :
  PrimFloat.is_nan x = false <-> Prim2SF x <> S754_nan.
Proof.
  unfold PrimFloat.is_nan. rewrite FloatAxioms.eqb_spec. unfold SFeqb. split.
  - intros H E. rewrite E in H. discriminate H.
  - intros H. destruct (sf_compare_key _ _ H H) as [c [Hc [_ [HEq _]]]].
    rewrite Hc. rewrite (proj2 HEq eq_refl). reflexivity.
Qed.

Lemma leb_key (x y : float) :
  PrimFloat.is_nan x = false -> PrimFloat.is_nan y = false ->
  PrimFloat.leb x y = true <-> key_le (sf_key (Prim2SF x)) (sf_key (Prim2SF y)).
Proof.
  intros Hx Hy. apply is_nan_spec in Hx. apply is_nan_spec in Hy.
  rewrite FloatAxioms.leb_spec. unfold SFleb.
  destruct (sf_compare_key _ _ Hx Hy) as [c [Hc [HLt [HEq HGt]]]].
  rewrite Hc.
  destruct (sf_key (Prim2SF x)) as [[a1 a2] a3].
  destruct (sf_key (Prim2SF y)) as [[b1 b2] b3].
  cbn [key_le key_lt] in *.
  destruct c; split; intros H; try reflexivity; try discriminate H.
  - injection (proj1 HEq eq_refl) as -> -> ->. lia.
  - pose proof (proj1 HLt eq_refl). lia.
  - pose proof (proj1 HGt eq_refl). lia.
Qed.

Lemma ltb_key (x y : float) :
  PrimFloat.is_nan x = false -> PrimFloat.is_nan y = false ->
  PrimFloat.ltb x y = true <-> key_lt (sf_key (Prim2SF x)) (sf_key (Prim2SF y)).
Proof.
  intros Hx Hy. apply is_nan_spec in Hx. apply is_nan_spec in Hy.
  rewrite FloatAxioms.ltb_spec. unfold SFltb.
  destruct (sf_compare_key _ _ Hx Hy) as [c [Hc [HLt [HEq HGt]]]].
  rewrite Hc.
  destruct (sf_key (Prim2SF x)) as [[a1 a2] a3].
  destruct (sf_key (Prim2SF y)) as [[b1 b2] b3].
  cbn [key_le key_lt] in *.
  destruct c; split; intros H; try reflexivity; try discriminate H.
  - injection (proj1 HEq eq_refl) as -> -> ->. lia.
  - now apply HLt.
  - pose proof (proj1 HGt eq_refl). lia.
Qed.

Lemma key_same_number (x y : float) :
  PrimFloat.is_nan x = false -> PrimFloat.is_nan y = false ->
  sf_key (Prim2SF x) = sf_key (Prim2SF y) -> same_number x y.
Proof.
  intros Hx Hy. apply is_nan_spec in Hx. apply is_nan_spec in Hy.
  intros E.
  destruct (Prim2SF x) as [sa|sa| |sa ma ea] eqn:Ex;
    destruct (Prim2SF y) as [sb|sb| |sb mb eb] eqn:Ey;
    try congruence;
    try destruct sa; try destruct sb; cbn [sf_key] in E;
    try discriminate E;
    try (right; do 2 eexists; split; eassumption);
    left; apply Prim2SF_inj; rewrite Ex, Ey;
    try reflexivity;
    injection E; intros; f_equal; lia.
Qed.

Lemma same_number_refl (x : float) : same_number x x.
Proof. now left. Qed.

Lemma same_number_sym (x y : float) : same_number x y -> same_number y x.
Proof.
  intros [->|[s [s' [H1 H2]]]]; [now left|]. right. now exists s', s.
Qed.

Lemma same_number_spec (x y : float) :
  same_number x y ->
  Prim2SF x = Prim2SF y
  \/ (exists s s', Prim2SF x = S754_zero s /\ Prim2SF y = S754_zero s').
Proof.
  intros [->|H]; [now left | now right].
Qed.

Lemma same_number_of_spec (x y : float) :
  Prim2SF x = Prim2SF y
  \/ (exists s s', Prim2SF x = S754_zero s /\ Prim2SF y = S754_zero s') ->
  same_number x y.
Proof.
  intros [E|H]; [left; now apply Prim2SF_inj | now right].
Qed.

Lemma leb_same_r (a x x' : float) :
  same_number x x' -> PrimFloat.leb a x = PrimFloat.leb a x'.
Proof.
  intros [->|[s [s' [H1 H2]]]]; [reflexivity|].
  rewrite !FloatAxioms.leb_spec, H1, H2. unfold SFleb.
  destruct (Prim2SF a) as [sa|sa| |sa ma ea]; reflexivity.
Qed.

Lemma leb_same_l (a x x' : float) :
  same_number x x' -> PrimFloat.leb x a = PrimFloat.leb x' a.
Proof.
  intros [->|[s [s' [H1 H2]]]]; [reflexivity|].
  rewrite !FloatAxioms.leb_spec, H1, H2. unfold SFleb.
  destruct (Prim2SF a) as [sa|sa| |sa ma ea]; reflexivity.
Qed.

Lemma ltb_same_r (a x x' : float) :
  same_number x x' -> PrimFloat.ltb a x = PrimFloat.ltb a x'.
Proof.
  intros [->|[s [s' [H1 H2]]]]; [reflexivity|].
  rewrite !FloatAxioms.ltb_spec, H1, H2. unfold SFltb.
  destruct (Prim2SF a) as [sa|sa| |sa ma ea]; reflexivity.
Qed.

Lemma ltb_same_l (a x x' : float) :
  same_number x x' -> PrimFloat.ltb x a = PrimFloat.ltb x' a.
Proof.
  intros [->|[s [s' [H1 H2]]]]; [reflexivity|].
  rewrite !FloatAxioms.ltb_spec, H1, H2. unfold SFltb.
  destruct (Prim2SF a) as [sa|sa| |sa ma ea]; reflexivity.
Qed.

Lemma add_same_l (x x' e : float) :
  same_number x x' -> same_number (x + e)%float (x' + e)%float.
Proof.
  intros [->|[s [s' [H1 H2]]]]; [now left|].
  apply same_number_of_spec. rewrite !FloatAxioms.add_spec, H1, H2.
  unfold SF64add, SFadd.
  destruct (Prim2SF e) as [se|se| |se me ee]; try (left; reflexivity).
  right. destruct s, s', se; do 2 eexists; split; reflexivity.
Qed.

Lemma sub_same (x x' y y' : float) :
  same_number x x' -> same_number y y' ->
  same_number (x - y)%float (x' - y')%float.
Proof.
  intros Hx Hy. apply same_number_of_spec. rewrite !FloatAxioms.sub_spec.
  unfold SF64sub, SFsub.
  destruct (same_number_spec _ _ Hx) as [Ex|[s [s' [H1 H2]]]];
    destruct (same_number_spec _ _ Hy) as [Ey|[t [t' [G1 G2]]]].
  - rewrite Ex, Ey. now left.
  - rewrite Ex, G1, G2.
    destruct (Prim2SF x') as [sa|sa| |sa ma ea]; try (left; reflexivity).
    right. destruct sa, t, t'; do 2 eexists; split; reflexivity.
  - rewrite H1, H2, Ey.
    destruct (Prim2SF y') as [sa|sa| |sa ma ea]; try (left; reflexivity).
    right. destruct s, s', sa; do 2 eexists; split; reflexivity.
  - rewrite H1, H2, G1, G2.
    right. destruct s, s', t, t'; do 2 eexists; split; reflexivity.
Qed.

Lemma mul_same_r (c x x' : float) :
  same_number x x' -> same_number (c * x)%float (c * x')%float.
Proof.
  intros [->|[s [s' [H1 H2]]]]; [now left|].
  apply same_number_of_spec. rewrite !FloatAxioms.mul_spec, H1, H2.
  unfold SF64mul, SFmul.
  destruct (Prim2SF c) as [sc|sc| |sc mc ec]; try (left; reflexivity).
  - right. do 2 eexists; split; reflexivity.
  - right. do 2 eexists; split; reflexivity.
Qed.

Lemma f_le_refl (x : float) : PrimFloat.is_nan x = false -> f_le x x.
Proof.
  intros Hx. apply (leb_key x x Hx Hx).
  destruct (sf_key (Prim2SF x)) as [[a1 a2] a3]. cbn. lia.
Qed.

Lemma f_le_trans (x y z : float) :
  PrimFloat.is_nan x = false -> PrimFloat.is_nan y = false ->
  PrimFloat.is_nan z = false ->
  f_le x y -> f_le y z -> f_le x z.
Proof.
  intros Hx Hy Hz Hxy Hyz.
  apply (leb_key x y Hx Hy) in Hxy. apply (leb_key y z Hy Hz) in Hyz.
  apply (leb_key x z Hx Hz).
  destruct (sf_key (Prim2SF x)) as [[a1 a2] a3].
  destruct (sf_key (Prim2SF y)) as [[b1 b2] b3].
  destruct (sf_key (Prim2SF z)) as [[c1 c2] c3].
  cbn [key_le] in *. lia.
Qed.

Lemma f_lt_le (x y : float) :
  PrimFloat.is_nan x = false -> PrimFloat.is_nan y = false ->
  f_lt x y -> f_le x y.
Proof.
  intros Hx Hy H. apply (ltb_key x y Hx Hy) in H. apply (leb_key x y Hx Hy).
  destruct (sf_key (Prim2SF x)) as [[a1 a2] a3].
  destruct (sf_key (Prim2SF y)) as [[b1 b2] b3].
  cbn [key_le key_lt] in *. lia.
Qed.

Lemma not_lt_le (x y : float) :
  PrimFloat.is_nan x = false -> PrimFloat.is_nan y = false ->
  PrimFloat.ltb x y = false -> f_le y x.
Proof.
  intros Hx Hy H. apply (leb_key y x Hy Hx).
  assert (N : ~ key_lt (sf_key (Prim2SF x)) (sf_key (Prim2SF y))).
  { intros K. apply (ltb_key x y Hx Hy) in K. congruence. }
  destruct (sf_key (Prim2SF x)) as [[a1 a2] a3].
  destruct (sf_key (Prim2SF y)) as [[b1 b2] b3].
  cbn [key_le key_lt] in *. lia.
Qed.

Lemma f_le_antisym (x y : float) :
  PrimFloat.is_nan x = false -> PrimFloat.is_nan y = false ->
  f_le x y -> f_le y x -> same_number x y.
Proof.
  intros Hx Hy Hxy Hyx.
  apply (leb_key x y Hx Hy) in Hxy. apply (leb_key y x Hy Hx) in Hyx.
  apply key_same_number; trivial.
  destruct (sf_key (Prim2SF x)) as [[a1 a2] a3].
  destruct (sf_key (Prim2SF y)) as [[b1 b2] b3].
  cbn [key_le] in *. repeat f_equal; lia.
Qed.

(* ------------------------------------------------------------------ *)
(** ** [min], [max] and the y-range on floats *)

Lemma fold_min_f_spec (rest : list float) :
  forall x,
    Forall (fun y => PrimFloat.is_nan y = false) (x :: rest) ->
    let m := fold_left (fun cur item => if PrimFloat.ltb item cur then item else cur)
                       rest x in
    In m (x :: rest) /\ forall y, In y (x :: rest) -> f_le m y.
Proof.
  induction rest as [|a rest IH]; intros x Hok; cbn [fold_left].
  - split; [now left|]. intros y [<-|[]]. apply f_le_refl.
    now inversion Hok.
  - inversion Hok as [|? ? Hx Hrest]; subst.
    inversion Hrest as [|? ? Ha Hrest']; subst.
    assert (Hall : forall y, In y (x :: a :: rest) -> PrimFloat.is_nan y = false).
    { now apply Forall_forall. }
    destruct (PrimFloat.ltb a x) eqn:Hax.
    + destruct (IH a Hrest) as [Hin Hle]. split.
      * destruct Hin as [<-|Hin]; [right; now left | right; now right].
      * intros y [<-|[<-|Hy]].
        -- apply f_le_trans with a; trivial.
           ++ apply Hall. right. exact Hin.
           ++ apply Hle; now left.
           ++ now apply f_lt_le.
        -- apply Hle; now left.
        -- apply Hle; now right.
    + assert (Hxr : Forall (fun y => PrimFloat.is_nan y = false) (x :: rest))
        by now constructor.
      destruct (IH x Hxr) as [Hin Hle]. split.
      * destruct Hin as [<-|Hin]; [now left | right; now right].
      * intros y [<-|[<-|Hy]].
        -- apply Hle; now left.
        -- apply f_le_trans with x; trivial.
           ++ apply Hall. destruct Hin as [<-|Hin]; [now left | right; now right].
           ++ apply Hle; now left.
           ++ now apply not_lt_le.
        -- apply Hle; now right.
Qed.

Lemma fold_max_f_spec (rest : list float) :
  forall x,
    Forall (fun y => PrimFloat.is_nan y = false) (x :: rest) ->
    let m := fold_left (fun cur item => if PrimFloat.ltb cur item then item else cur)
                       rest x in
    In m (x :: rest) /\ forall y, In y (x :: rest) -> f_le y m.
Proof.
  induction rest as [|a rest IH]; intros x Hok; cbn [fold_left].
  - split; [now left|]. intros y [<-|[]]. apply f_le_refl.
    now inversion Hok.
  - inversion Hok as [|? ? Hx Hrest]; subst.
    inversion Hrest as [|? ? Ha Hrest']; subst.
    assert (Hall : forall y, In y (x :: a :: rest) -> PrimFloat.is_nan y = false).
    { now apply Forall_forall. }
    destruct (PrimFloat.ltb x a) eqn:Hax.
    + destruct (IH a Hrest) as [Hin Hle]. split.
      * destruct Hin as [<-|Hin]; [right; now left | right; now right].
      * intros y [<-|[<-|Hy]].
        -- apply f_le_trans with a; trivial.
           ++ apply Hall. right. exact Hin.
           ++ now apply f_lt_le.
           ++ apply Hle; now left.
        -- apply Hle; now left.
        -- apply Hle; now right.
    + assert (Hxr : Forall (fun y => PrimFloat.is_nan y = false) (x :: rest))
        by now constructor.
      destruct (IH x Hxr) as [Hin Hle]. split.
      * destruct Hin as [<-|Hin]; [now left | right; now right].
      * intros y [<-|[<-|Hy]].
        -- apply Hle; now left.
        -- apply f_le_trans with x; trivial.
           ++ apply Hall. destruct Hin as [<-|Hin]; [now left | right; now right].
           ++ now apply not_lt_le.
           ++ apply Hle; now left.
        -- apply Hle; now right.
Qed.

Lemma py_min_f_spec (l : list float) :
  l <> [] ->
  Forall (fun y => PrimFloat.is_nan y = false) l ->
  exists m, py_min_f l = Ok m /\ In m l /\ forall y, In y l -> f_le m y.
Proof.
  destruct l as [|x rest]; [congruence|]. intros _ Hok.
  eexists. split; [reflexivity|]. now apply fold_min_f_spec.
Qed.

Lemma py_max_f_spec (l : list float) :
  l <> [] ->
  Forall (fun y => PrimFloat.is_nan y = false) l ->
  exists m, py_max_f l = Ok m /\ In m l /\ forall y, In y l -> f_le y m.
Proof.
  destruct l as [|x rest]; [congruence|]. intros _ Hok.
  eexists. split; [reflexivity|]. now apply fold_max_f_spec.
Qed.

Lemma no_nan_fy (vs : list FVector) :
  Forall no_nan vs -> Forall (fun y => PrimFloat.is_nan y = false) (map fy vs).
Proof.
  intros H. apply Forall_map. revert H. apply Forall_impl.
  intros v [_ [Hy _]]. exact Hy.
Qed.

Lemma no_nan_fz (vs : list FVector) :
  Forall no_nan vs -> Forall (fun y => PrimFloat.is_nan y = false) (map fz vs).
Proof.
  intros H. apply Forall_map. revert H. apply Forall_impl.
  intros v [_ [_ Hz]]. exact Hz.
Qed.

Lemma no_nan_filter (p : FVector -> bool) (vs : list FVector) :
  Forall no_nan vs -> Forall no_nan (filter p vs).
Proof.
  rewrite !Forall_forall. intros H v Hv. apply H.
  apply filter_In in Hv. tauto.
Qed.

Lemma y_range_f_spec (vs : list FVector) :
  vs <> [] -> Forall no_nan vs ->
  exists r, y_range_f vs = Ok r /\ y_range_is_f (fun v => In v vs) r.
Proof.
  intros Hne Hok. unfold y_range_f.
  destruct (py_max_f_spec (map fy vs) (map_nonempty fy vs Hne) (no_nan_fy vs Hok))
    as [hi [Hhi [Hin_hi Hle_hi]]].
  destruct (py_min_f_spec (map fy vs) (map_nonempty fy vs Hne) (no_nan_fy vs Hok))
    as [lo [Hlo [Hin_lo Hle_lo]]].
  rewrite Hhi, Hlo. cbn [rbind].
  exists (hi - lo)%float. split; [reflexivity|].
  apply in_map_iff in Hin_hi as [vhi [Ehi Hvhi]].
  apply in_map_iff in Hin_lo as [vlo [Elo Hvlo]].
  exists vlo, vhi. repeat split; trivial.
  - rewrite Elo. apply Hle_lo. now apply in_map.
  - rewrite Ehi. apply Hle_hi. now apply in_map.
  - rewrite Ehi, Elo. reflexivity.
Qed.

Lemma y_range_is_f_ext (S S' : FVector -> Prop) (r : float) :
  (forall v, S v <-> S' v) -> y_range_is_f S r -> y_range_is_f S' r.
Proof.
  intros Hext [lo [hi [Hlo [Hhi [Hb Hr]]]]].
  exists lo, hi. repeat split; try (now apply Hext); try exact Hr.
  - apply Hb. now apply Hext.
  - apply Hb. now apply Hext.
Qed.

(** Two y-ranges of one set are the same number: the extreme y are the same
    numbers, and so are their rounded differences. *)
Lemma y_range_is_f_same (S : FVector -> Prop) (r r' : float) :
  (forall v, S v -> PrimFloat.is_nan (fy v) = false) ->
  y_range_is_f S r -> y_range_is_f S r' -> same_number r r'.
Proof.
  intros Hok [lo [hi [Hlo [Hhi [Hb Hr]]]]] [lo' [hi' [Hlo' [Hhi' [Hb' Hr']]]]].
  destruct (Hb lo' Hlo') as [A1 A2]. destruct (Hb hi' Hhi') as [A3 A4].
  destruct (Hb' lo Hlo) as [B1 B2]. destruct (Hb' hi Hhi) as [B3 B4].
  subst r r'. apply sub_same.
  - apply f_le_antisym; auto.
  - apply f_le_antisym; auto.
Qed.

Lemma ground_level_f_same (verts : list FVector) (g g' : float) :
  Forall no_nan verts ->
  ground_level_f verts g -> ground_level_f verts g' -> same_number g g'.
Proof.
  intros Hok [[v [Hv Ev]] Hle] [[v' [Hv' Ev']] Hle'].
  specialize (Hle v' Hv'). specialize (Hle' v Hv).
  rewrite Forall_forall in Hok.
  destruct (Hok v Hv) as [_ [_ Hz]]. destruct (Hok v' Hv') as [_ [_ Hz']].
  subst g g'. now apply f_le_antisym.
Qed.

Lemma py_min_f_ground_level (verts : list FVector) :
  verts <> [] -> Forall no_nan verts ->
  exists g, py_min_f (map fz verts) = Ok g /\ ground_level_f verts g.
Proof.
  intros Hne Hok.
  destruct (py_min_f_spec (map fz verts) (map_nonempty fz verts Hne)
              (no_nan_fz verts Hok)) as [g [Hg [Hin Hle]]].
  exists g. split; [exact Hg|]. split.
  - apply in_map_iff in Hin as [v [Ev Hv]]. exists v. now split.
  - intros v Hv. apply Hle. now apply in_map.
Qed.

(* ------------------------------------------------------------------ *)
(** ** The analysis on floats against the rule on floats *)

Section FloatAnalysis.

Variable height : float.

Lemma left_foot_verts_f_In (g : float) (verts : list FVector) (v : FVector) :
  In v (left_foot_verts_f (foot_verts_f height g verts))
  <-> left_foot_f height g verts v.
Proof.
  unfold left_foot_verts_f, foot_verts_f, left_foot_f, in_foot_band_f, f_le, f_lt.
  rewrite !filter_In. tauto.
Qed.

Lemma right_foot_verts_f_In (g : float) (verts : list FVector) (v : FVector) :
  In v (right_foot_verts_f (foot_verts_f height g verts))
  <-> right_foot_f height g verts v.
Proof.
  unfold right_foot_verts_f, foot_verts_f, right_foot_f, in_foot_band_f, f_le, f_lt.
  rewrite !filter_In. tauto.
Qed.

Lemma in_foot_band_f_ground (g g' : float) (v : FVector) :
  same_number g g' -> in_foot_band_f height g v <-> in_foot_band_f height g' v.
Proof.
  intros E. unfold in_foot_band_f, f_le.
  rewrite (leb_same_r (fz v) _ _ (add_same_l g g' _ E)). reflexivity.
Qed.

Lemma left_foot_f_ground (g g' : float) (verts : list FVector) (v : FVector) :
  same_number g g' ->
  left_foot_f height g verts v <-> left_foot_f height g' verts v.
Proof.
  intros E. unfold left_foot_f.
  rewrite (in_foot_band_f_ground g g' v E). reflexivity.
Qed.

Lemma right_foot_f_ground (g g' : float) (verts : list FVector) (v : FVector) :
  same_number g g' ->
  right_foot_f height g verts v <-> right_foot_f height g' verts v.
Proof.
  intros E. unfold right_foot_f.
  rewrite (in_foot_band_f_ground g g' v E). reflexivity.
Qed.

Lemma threshold_same (tr tr' r r' : float) :
  same_number tr tr' -> same_number r r' ->
  f_lt (0.3 * tr)%float r <-> f_lt (0.3 * tr')%float r'.
Proof.
  intros Et Er. unfold f_lt.
  rewrite (ltb_same_l r _ _ (mul_same_r 0.3%float tr tr' Et)).
  rewrite (ltb_same_r (0.3 * tr')%float r r' Er). reflexivity.
Qed.

(** With the ground level and the three y-ranges the code computes, the rule
    on floats is the comparison of line 75. *)
Lemma wide_stance_f_computed (g lr rr tr : float) (verts : list FVector) :
  Forall no_nan verts ->
  ground_level_f verts g ->
  y_range_is_f (left_foot_f height g verts) lr ->
  y_range_is_f (right_foot_f height g verts) rr ->
  y_range_is_f (fun v => In v verts) tr ->
  wide_stance_f height verts
  <-> f_lt (0.3 * tr)%float lr /\ f_lt (0.3 * tr)%float rr.
Proof.
  intros Hok Hg Hl Hr Ht.
  assert (Hy : forall v, In v verts -> PrimFloat.is_nan (fy v) = false).
  { intros v Hv. rewrite Forall_forall in Hok. now destruct (Hok v Hv) as [_ [? _]]. }
  split.
  - intros [g' [lr' [rr' [tr' [Hg' [_ [_ [Hl' [Hr' [Ht' [H1 H2]]]]]]]]]]].
    pose proof (ground_level_f_same _ _ _ Hok Hg' Hg) as Eg.
    apply (y_range_is_f_ext _ _ _ (fun v => left_foot_f_ground g' g verts v Eg))
      in Hl'.
    apply (y_range_is_f_ext _ _ _ (fun v => right_foot_f_ground g' g verts v Eg))
      in Hr'.
    assert (El : same_number lr' lr).
    { apply (y_range_is_f_same (left_foot_f height g verts)); trivial.
      intros v [Hv _]. now apply Hy. }
    assert (Er : same_number rr' rr).
    { apply (y_range_is_f_same (right_foot_f height g verts)); trivial.
      intros v [Hv _]. now apply Hy. }
    assert (Et : same_number tr' tr).
    { apply (y_range_is_f_same (fun v => In v verts)); trivial. }
    split.
    + now apply (threshold_same tr' tr lr' lr Et El).
    + now apply (threshold_same tr' tr rr' rr Et Er).
  - intros [H1 H2]. exists g, lr, rr, tr.
    split; [exact Hg|].
    split; [destruct Hl as [lo [_ [Hlo _]]]; now exists lo|].
    split; [destruct Hr as [lo [_ [Hlo _]]]; now exists lo|].
    repeat (split; [assumption|]). assumption.
Qed.

Lemma wide_stance_f_clusters (g : float) (verts : list FVector) :
  Forall no_nan verts ->
  ground_level_f verts g ->
  wide_stance_f height verts ->
  nonempty (left_foot_verts_f (foot_verts_f height g verts)) = true
  /\ nonempty (right_foot_verts_f (foot_verts_f height g verts)) = true.
Proof.
  intros Hok Hg [g' [lr [rr [tr [Hg' [[vl Hvl] [[vr Hvr] _]]]]]]].
  pose proof (ground_level_f_same _ _ _ Hok Hg' Hg) as Eg.
  split; apply nonempty_In.
  - exists vl. apply left_foot_verts_f_In.
    now apply (left_foot_f_ground g' g verts vl Eg).
  - exists vr. apply right_foot_verts_f_In.
    now apply (right_foot_f_ground g' g verts vr Eg).
Qed.

Lemma classify_f_sound (verts : list FVector) :
  verts <> [] -> Forall no_nan verts ->
  exists cls,
    classify_f height verts = Ok cls
    /\ ground_level_f verts (min_z_f cls)
    /\ (is_quadruped_f cls = true <-> wide_stance_f height verts)
    /\ char_type_f cls = (if is_quadruped_f cls then Quadruped else Humanoid).
Proof.
  intros Hne Hok.
  destruct (py_min_f_ground_level verts Hne Hok) as [g [Hg Hgl]].
  unfold classify_f.
  rewrite (proj2 (nonempty_true verts) Hne), Hg. cbn [rbind].
  set (left := left_foot_verts_f (foot_verts_f height g verts)).
  set (right := right_foot_verts_f (foot_verts_f height g verts)).
  assert (HokL : Forall no_nan left) by (do 2 apply no_nan_filter; exact Hok).
  assert (HokR : Forall no_nan right) by (do 2 apply no_nan_filter; exact Hok).
  destruct (nonempty left && nonempty right) eqn:Hboth.
  - apply andb_prop in Hboth as [HL HR]. rewrite HL, HR.
    destruct (y_range_f_spec left (proj1 (nonempty_true left) HL) HokL)
      as [lr [Elr Hlr]].
    destruct (y_range_f_spec right (proj1 (nonempty_true right) HR) HokR)
      as [rr [Err Hrr]].
    destruct (y_range_f_spec verts Hne Hok) as [tr [Etr Htr]].
    rewrite Elr, Err, Etr. cbn [rbind].
    apply (y_range_is_f_ext _ (left_foot_f height g verts)) in Hlr;
      [|intros v; apply left_foot_verts_f_In].
    apply (y_range_is_f_ext _ (right_foot_f height g verts)) in Hrr;
      [|intros v; apply right_foot_verts_f_In].
    pose proof (wide_stance_f_computed g lr rr tr verts Hok Hgl Hlr Hrr Htr)
      as Hrule.
    destruct (PrimFloat.ltb (0.3 * tr) lr && PrimFloat.ltb (0.3 * tr) rr) eqn:Hcmp;
      cbn [rbind]; eexists; (split; [reflexivity|]);
      cbn [min_z_f is_quadruped_f char_type_f];
      (split; [exact Hgl|]); (split; [|reflexivity]).
    + apply andb_prop in Hcmp as [H1 H2].
      split; [intros _; apply Hrule; now split | reflexivity].
    + split; [discriminate|]. intros Hw. apply Hrule in Hw as [H1 H2].
      unfold f_lt in H1, H2.
      rewrite H1, H2 in Hcmp. discriminate Hcmp.
  - assert (Hfeet : (3 <=? num_feet_f left right)%nat = false).
    { unfold num_feet_f.
      destruct (nonempty left), (nonempty right); reflexivity. }
    rewrite Hfeet. cbn [rbind]. eexists. split; [reflexivity|].
    cbn [min_z_f is_quadruped_f char_type_f].
    split; [exact Hgl|]. split; [|reflexivity].
    split; [discriminate|]. intros Hw.
    destruct (wide_stance_f_clusters g verts Hok Hgl Hw) as [HL HR].
    fold left in HL. fold right in HR. rewrite HL, HR in Hboth.
    discriminate Hboth.
Qed.

End FloatAnalysis.

(** C2, amended: on a non-empty vertex sequence without a NaN coordinate the
    analysis returns, with the lowest z as ground level, and it sets the flag
    the build branches on, and prints Quadruped, exactly when both foot
    clusters (x < 0 and x > 0, within 5% of the height above ground level)
    have a member and the y-range of each strictly exceeds 0.3 times the
    y-range of the whole mesh, every difference and product being the
    rounded binary64 one the program computes; in every other case the flag
    is off and the body type is Humanoid. *)
Theorem classify_f_quadruped_iff (height : float) (verts : list FVector) :
  verts <> [] ->
  Forall no_nan verts ->
  exists cls,
    classify_f height verts = Ok cls
    /\ ground_level_f verts (min_z_f cls)
    /\ (is_quadruped_f cls = true <-> wide_stance_f height verts)
    /\ (is_quadruped_f cls = false <-> ~ wide_stance_f height verts)
    /\ (char_type_f cls = Quadruped <-> wide_stance_f height verts)
    /\ (char_type_f cls = Humanoid <-> ~ wide_stance_f height verts).
Proof.
  intros Hne Hok.
  destruct (classify_f_sound height verts Hne Hok) as [cls [Hc [Hg [Hq Ht]]]].
  exists cls. split; [exact Hc|]. split; [exact Hg|].
  rewrite Ht. destruct (is_quadruped_f cls).
  - assert (Hw : wide_stance_f height verts) by now apply Hq.
    repeat split; intros H; try exact Hw; try reflexivity;
      try discriminate H; contradiction.
  - assert (Hn : ~ wide_stance_f height verts).
    { intros Hw. apply Hq in Hw. discriminate Hw. }
    repeat split; intros H; try exact Hn; try reflexivity;
      try discriminate H; contradiction.
Qed.

Lemma classify_f_quadruped_iff_witness :
  let verts := [mkFVector (-0.25) (-1) 0; mkFVector (-0.25) 1 0;
                mkFVector 0.25 (-1) 0; mkFVector 0.25 1 0;
                mkFVector 0 0 1]%float in
  verts <> []
  /\ Forall no_nan verts
  /\ exists cls,
       classify_f 1 verts = Ok cls
       /\ ground_level_f verts (min_z_f cls)
       /\ (is_quadruped_f cls = true <-> wide_stance_f 1 verts)
       /\ (is_quadruped_f cls = false <-> ~ wide_stance_f 1 verts)
       /\ (char_type_f cls = Quadruped <-> wide_stance_f 1 verts)
       /\ (char_type_f cls = Humanoid <-> ~ wide_stance_f 1 verts).
Proof.
  intros verts.
  assert (Hok : Forall no_nan verts).
  { repeat constructor. }
  split; [discriminate|]. split; [exact Hok|].
  apply (classify_f_quadruped_iff 1 verts); [discriminate | exact Hok].
Defined.

(** C2, as stated, fails.  Take y = -2^-54 and y = 3 on both sides at ground
    level and a fifth vertex at y = 10, height 20.  As numbers each side's
    y-range, 3 + 2^-54, exceeds 0.3 times the total, 0.3 * (10 + 2^-54): the
    condition of the claim holds, and the analysis run in exact arithmetic
    says Quadruped.  The program rounds both ranges, to 3 and to 10, and the
    product to 3; 3 < 3 is false, the flag stays off and the body type is
    Humanoid. *)
Lemma classify_rounds_to_humanoid :
  let b := 0x1p-54%float in
  let verts := [mkFVector (-1) (- b) 0; mkFVector (-1) 3 0;
                mkFVector 1 (- b) 0; mkFVector 1 3 0;
                mkFVector 0 10 20]%float in
  verts <> []
  /\ Forall no_nan verts
  /\ wide_stance 20 (map exact verts)
  /\ (exists cls, classify 20 (map exact verts) = Ok cls
                  /\ is_quadruped cls = true /\ char_type cls = Quadruped)
  /\ classify_f 20 verts = Ok (mkFClassification 0 false Humanoid)
  /\ y_range_f verts = Ok 10%float
  /\ y_range_f (left_foot_verts_f (foot_verts_f 20 0 verts)) = Ok 3%float
  /\ (0.3 * 10 = 3)%float.
Proof.
  intros b verts.
  split; [discriminate|].
  split; [repeat constructor|].
  assert (Hq : exists cls, classify 20 (map exact verts) = Ok cls
                           /\ is_quadruped cls = true /\ char_type cls = Quadruped).
  { eexists. split; [vm_compute; reflexivity|]. split; reflexivity. }
  split.
  - destruct (classify_sound 20 (map exact verts)) as [cls [Hc [_ [Hw _]]]];
      [discriminate|].
    destruct Hq as [cls' [Hc' [Hf _]]].
    rewrite Hc in Hc'. injection Hc' as <-. now apply Hw.
  - split; [exact Hq|].
    repeat split; vm_compute; reflexivity.
Qed.

(* ------------------------------------------------------------------ *)
(** ** Names the host hands out *)

Lemma name_taken_iff (used : list string) (name : string) :
  name_taken used name = true <-> In name used.
Proof.
  unfold name_taken. rewrite existsb_exists. split.
  - intros [n [Hin E]]. apply String.eqb_eq in E. now subst.
  - intros Hin. exists name. split; [exact Hin | apply String.eqb_refl].
Qed.

Lemma has_delim_append (a b : string) :
  has_delim (a ++ b) = has_delim a || has_delim b.
Proof.
  induction a as [|c a IH]; cbn [String.append has_delim]; [reflexivity|].
  rewrite IH. apply orb_assoc.
Qed.

Lemma last_segment_unique (p1 : string) :
  forall p2 d1 d2,
    has_delim d1 = false -> has_delim d2 = false ->
    (p1 ++ String delim d1 = p2 ++ String delim d2)%string ->
    d1 = d2.
Proof.
  induction p1 as [|c p1 IH]; intros [|c' p2] d1 d2 H1 H2 E;
    cbn [String.append] in E.
  - now injection E.
  - injection E as _ E. rewrite E, has_delim_append in H1.
    cbn [has_delim] in H1. rewrite Ascii.eqb_refl in H1.
    cbn in H1. rewrite orb_true_r in H1. discriminate H1.
  - injection E as _ E. rewrite <- E, has_delim_append in H2.
    cbn [has_delim] in H2. rewrite Ascii.eqb_refl in H2.
    cbn in H2. rewrite orb_true_r in H2. discriminate H2.
  - injection E as _ E. exact (IH p2 d1 d2 H1 H2 E).
Qed.

Lemma string_of_uint_no_delim (d : Decimal.uint) :
  has_delim (NilEmpty.string_of_uint d) = false.
Proof.
  induction d; cbn [NilEmpty.string_of_uint has_delim]; trivial;
    rewrite IHd; reflexivity.
Qed.

Lemma pad3_no_delim (s : string) :
  has_delim s = false -> has_delim (pad3 s) = false.
Proof.
  intros H. unfold pad3.
  destruct (String.length s) as [|[|[|n]]]; cbn [has_delim]; rewrite H;
    reflexivity.
Qed.

Lemma pad3_parse (s : string) (d : Decimal.uint) :
  NilEmpty.uint_of_string s = Some d ->
  exists d', NilEmpty.uint_of_string (pad3 s) = Some d'
             /\ Nat.of_uint d' = Nat.of_uint d.
Proof.
  intros H. unfold pad3.
  destruct (String.length s) as [|[|[|n]]];
    cbn [NilEmpty.uint_of_string]; rewrite H; eexists; split;
    reflexivity.
Qed.

Lemma numstr_inj (n n' : nat) : numstr n = numstr n' -> n = n'.
Proof.
  unfold numstr. intros E. injection E as E.
  destruct (pad3_parse _ _ (NilEmpty.usu (Nat.to_uint n))) as [d [Hd Hn]].
  destruct (pad3_parse _ _ (NilEmpty.usu (Nat.to_uint n'))) as [d' [Hd' Hn']].
  rewrite E, Hd' in Hd. injection Hd as ->.
  rewrite Unsigned.of_to in Hn, Hn'. congruence.
Qed.

Lemma tempname_inj (left : string) (n n' : nat) :
  tempname left n = tempname left n' -> n = n'.
Proof.
  unfold tempname. intros E. apply numstr_inj.
  unfold numstr in *. f_equal.
  apply (last_segment_unique _ _ _ _) with (3 := E);
    apply pad3_no_delim, string_of_uint_no_delim.
Qed.

Lemma first_free_spec (used : list string) (left : string) (fuel : nat) :
  forall number,
    ~ In (first_free used left number fuel) used
    \/ forall k, (k <= fuel)%nat -> In (tempname left (S number + k)) used.
Proof.
  induction fuel as [|fuel IH]; intros number; cbn [first_free].
  - destruct (name_taken used (tempname left (S number))) eqn:T.
    + right. intros k Hk. replace k with 0%nat by lia.
      rewrite Nat.add_0_r. now apply name_taken_iff.
    + left. intros Hin. apply name_taken_iff in Hin. congruence.
  - destruct (name_taken used (tempname left (S number))) eqn:T.
    + destruct (IH (S number)) as [Hfree | Hall]; [now left|].
      right. intros [|k] Hk.
      * rewrite Nat.add_0_r. now apply name_taken_iff.
      * replace (S number + S k)%nat with (S (S number) + k)%nat by lia.
        apply Hall. lia.
    + left. intros Hin. apply name_taken_iff in Hin. congruence.
Qed.

Lemma NoDup_map_inj {A B : Type} (f : A -> B) (l : list A) :
  (forall x y, f x = f y -> x = y) -> NoDup l -> NoDup (map f l).
Proof.
  intros Hinj. induction 1 as [|x l Hx _ IH]; cbn [map]; constructor; trivial.
  intros Hin. apply in_map_iff in Hin as [y [E Hy]].
  apply Hinj in E. now subst.
Qed.

(** The numbering never runs out of candidates: among [length used + 1]
    distinct names one is free. *)
Lemma first_free_fresh (used : list string) (left : string) (number : nat) :
  ~ In (first_free used left number (List.length used)) used.
Proof.
  destruct (first_free_spec used left (List.length used) number)
    as [Hfree | Hall]; [exact Hfree|].
  exfalso.
  set (cands := map (fun k => tempname left (S number + k))
                    (seq 0 (S (List.length used)))).
  assert (Hnd : NoDup cands).
  { apply NoDup_map_inj; [|apply seq_NoDup].
    intros x y E. apply tempname_inj in E. lia. }
  assert (Hincl : incl cands used).
  { intros c Hc. apply in_map_iff in Hc as [k [<- Hk]].
    apply in_seq in Hk. apply Hall. lia. }
  pose proof (NoDup_incl_length Hnd Hincl) as Hlen.
  unfold cands in Hlen. rewrite length_map, length_seq in Hlen. lia.
Qed.

Lemma unique_name_fresh (used : list string) (defname name : string) :
  ~ In (unique_name used defname name) used.
Proof.
  unfold unique_name.
  set (n := if String.eqb (substring 0 (MAX_NAME - 1) name) "" then defname
            else substring 0 (MAX_NAME - 1) name).
  destruct (name_taken used n) eqn:T.
  - destruct (split_name_number n) as [left number]. apply first_free_fresh.
  - intros Hin. apply name_taken_iff in Hin. congruence.
Qed.

Lemma substring_all (s : string) :
  forall n, (String.length s <= n)%nat -> substring 0 n s = s.
Proof.
  induction s as [|c s IH]; intros [|n] Hlen; cbn in *; trivial; try lia.
  rewrite IH; [reflexivity | lia].
Qed.

Lemma unique_name_keeps (used : list string) (defname name : string) :
  name <> EmptyString ->
  (String.length name <= MAX_NAME - 1)%nat ->
  ~ In name used ->
  unique_name used defname name = name.
Proof.
  intros Hne Hlen Hfree. unfold unique_name.
  rewrite (substring_all name _ Hlen).
  destruct (String.eqb name "") eqn:E.
  - apply String.eqb_eq in E. contradiction.
  - destruct (name_taken used name) eqn:T; [|reflexivity].
    apply name_taken_iff in T. contradiction.
Qed.

(* ------------------------------------------------------------------ *)
(** ** [create_bone] *)

Lemma update_last (f : EditBone -> EditBone) (bone : EditBone)
      (bones : list EditBone) :
  update (List.length bones) f (bones ++ [bone]) = Some (bones ++ [f bone]).
Proof.
  induction bones as [|b bones IH]; cbn [List.length app update].
  - reflexivity.
  - rewrite IH. reflexivity.
Qed.

Lemma modify_last (f : EditBone -> EditBone) (bone : EditBone)
      (bones : list EditBone) :
  modify (List.length bones) f (bones ++ [bone]) = Ok (tt, bones ++ [f bone]).
Proof.
  unfold modify. rewrite update_last. reflexivity.
Qed.

Lemma create_bone_run (name : string) (head tail : Vector)
      (parent : option BoneRef) (bones : list EditBone) :
  create_bone name head tail parent bones
  = Ok (List.length bones,
        bones ++ [mkEditBone (unique_name (bone_names bones) "Bone" name)
                             head tail parent false]).
Proof.
  unfold create_bone, bind, edit_bones_new, set_head, set_tail.
  rewrite modify_last. rewrite modify_last.
  destruct parent as [p|].
  - unfold set_parent, set_use_connect.
    rewrite modify_last. rewrite modify_last. reflexivity.
  - reflexivity.
Qed.

(** C4, as stated, fails: in a skeleton that holds a bone "Spine", a second
    [create_bone("Spine", ...)] does not raise [DuplicateNameError]; the host
    registers the new bone as "Spine.001".  (And a fresh name is not always
    kept: the empty name is registered as "Bone".) *)
Lemma create_bone_duplicate_returns :
  let bones := [mkEditBone "Spine" zero_vector (mkVector 0 0 1) None false] in
  In "Spine"%string (bone_names bones)
  /\ create_bone "Spine" zero_vector (mkVector 0 1 0) None bones
     <> Raise DuplicateNameError
  /\ create_bone "Spine" zero_vector (mkVector 0 1 0) None bones
     = Ok (1%nat,
           bones ++ [mkEditBone "Spine.001" zero_vector (mkVector 0 1 0)
                                None false])
  /\ create_bone "" zero_vector (mkVector 0 1 0) None bones
     = Ok (1%nat,
           bones ++ [mkEditBone "Bone" zero_vector (mkVector 0 1 0)
                                None false]).
Proof.
  intros bones. split; [now left|]. split; [discriminate|].
  split; reflexivity.
Qed.

(** C4, amended: for every skeleton state, [create_bone] never fails.  It
    appends one bone with the given head, tail and parent and returns the
    reference to it; the name it is registered under was not in the skeleton
    before, and it is exactly the requested name whenever that name is
    non-empty, at most 63 bytes long and not yet registered. *)
Theorem create_bone_registers (name : string) (head tail : Vector)
        (parent : option BoneRef) (bones : list EditBone) :
  exists registered,
    create_bone name head tail parent bones
    = Ok (List.length bones,
          bones ++ [mkEditBone registered head tail parent false])
    /\ ~ In registered (bone_names bones)
    /\ (name <> EmptyString ->
        (String.length name <= 63)%nat ->
        ~ In name (bone_names bones) ->
        registered = name).
Proof.
  exists (unique_name (bone_names bones) "Bone" name).
  split; [apply create_bone_run|]. split; [apply unique_name_fresh|].
  intros Hne Hlen Hfree. now apply unique_name_keeps.
Qed.

Lemma create_bone_registers_witness :
  exists registered,
    create_bone "Head" zero_vector (mkVector 0 0 1) (Some 0%nat)
                [mkEditBone "Spine" zero_vector zero_vector None false]
    = Ok (1%nat,
          [mkEditBone "Spine" zero_vector zero_vector None false;
           mkEditBone registered zero_vector (mkVector 0 0 1) (Some 0%nat) false])
    /\ registered = "Head"%string.
Proof.
  destruct (create_bone_registers
              "Head" zero_vector (mkVector 0 0 1) (Some 0%nat)
              [mkEditBone "Spine" zero_vector zero_vector None false])
    as [registered [Hrun [_ Hname]]].
  exists registered. split; [exact Hrun|].
  apply Hname.
  - discriminate.
  - cbn. lia.
  - cbn. intros [E|[]]. discriminate E.
Defined.

(** Each call keeps the parent-first order, as long as the parent handed to
    it is a bone of the skeleton. *)
Lemma create_bone_parents_first (n : string) (h t : Vector)
      (par : option BoneRef) (bones bones' : list EditBone) (bone : BoneRef) :
  parents_first bones ->
  (forall p, par = Some p -> (p < List.length bones)%nat) ->
  create_bone n h t par bones = Ok (bone, bones') ->
  parents_first bones'.
Proof.
  intros Hpf Hp Hrun. rewrite create_bone_run in Hrun.
  injection Hrun as _ <-. intros i b p Hnth Hb.
  destruct (Nat.lt_ge_cases i (List.length bones)) as [Hlt | Hge].
  - rewrite nth_error_app1 in Hnth by exact Hlt. exact (Hpf i b p Hnth Hb).
  - rewrite nth_error_app2 in Hnth by exact Hge.
    destruct (i - List.length bones)%nat as [|k] eqn:Ek;
      cbn [nth_error] in Hnth.
    + injection Hnth as <-. cbn [parent] in Hb.
      specialize (Hp p Hb). lia.
    + destruct k; discriminate Hnth.
Qed.

(* ------------------------------------------------------------------ *)
(** ** Names and parent links of a skeleton *)

Lemma links_names (bones : list EditBone) :
  bone_names bones = map fst (links bones).
Proof.
  unfold bone_names, links. rewrite map_map. reflexivity.
Qed.

Lemma links_length (bones : list EditBone) :
  List.length bones = List.length (links bones).
Proof.
  unfold links. now rewrite length_map.
Qed.

Lemma links_nth (bones : list EditBone) (i : nat) (bone : EditBone) :
  nth_error bones i = Some bone ->
  nth_error (links bones) i = Some (name bone, parent bone).
Proof.
  intros H. unfold links.
  exact (map_nth_error (fun b => (name b, parent b)) i bones H).
Qed.

Lemma parents_firstb_sound (ls : list (string * option BoneRef)) :
  forall k, parents_firstb k ls = true ->
  forall i n p, nth_error ls i = Some (n, Some p) -> (p < k + i)%nat.
Proof.
  induction ls as [|[n0 p0] rest IH]; intros k Hb i n p Hnth.
  - destruct i; discriminate Hnth.
  - cbn [parents_firstb] in Hb. apply andb_prop in Hb as [Hp0 Hrest].
    destruct i as [|i]; cbn [nth_error] in Hnth.
    + injection Hnth as _ ->. apply Nat.ltb_lt in Hp0. lia.
    + specialize (IH (S k) Hrest i n p Hnth). lia.
Qed.

Lemma parents_first_of_links (bones : list EditBone) :
  parents_firstb 0 (links bones) = true -> parents_first bones.
Proof.
  intros Hb i bone p Hnth Hp.
  apply links_nth in Hnth. rewrite Hp in Hnth.
  exact (parents_firstb_sound _ 0%nat Hb i _ p Hnth).
Qed.

Lemma single_root_of_links (bones : list EditBone) (root_name : string)
      (rest : list (string * BoneRef)) :
  links bones = (root_name, None) :: map (fun l => (fst l, Some (snd l))) rest ->
  single_root root_name bones.
Proof.
  intros Hl. destruct bones as [|root bones']; [discriminate Hl|].
  cbn [links map] in Hl. injection Hl as Hn Hp Hrest.
  exists 0%nat, root. repeat split; trivial.
  intros i bone Hnth Hnone. destruct i as [|i]; [reflexivity|].
  cbn [nth_error] in Hnth. apply links_nth in Hnth.
  unfold links in Hnth. rewrite Hrest, Hnone in Hnth.
  rewrite nth_error_map in Hnth.
  destruct (nth_error rest i); discriminate Hnth.
Qed.

(* ------------------------------------------------------------------ *)
(** ** The two builds *)

Section Build.

Variable world_mat : Matrix.
Variables width length height min_z : Q.

Let pelvis_x : Q := pelvis_x_of world_mat width length height min_z.
Let pelvis_y : Q := pelvis_y_of world_mat width length height min_z.
Let top : Q := vz (max_bb_world_of world_mat width length height min_z).

Lemma humanoid_run :
  exists bones,
    rig_bones world_mat width length height min_z false [] = Ok (tt, bones)
    /\ links bones = humanoid_links.
Proof.
  eexists; split.
  - run_edit. reflexivity.
  - reflexivity.
Qed.

Lemma quadruped_run :
  exists bones,
    rig_bones world_mat width length height min_z true [] = Ok (tt, bones)
    /\ links bones = quadruped_links.
Proof.
  eexists; split.
  - run_edit. reflexivity.
  - reflexivity.
Qed.

Lemma rig_bones_total (is_quadruped : bool) :
  exists bones,
    rig_bones world_mat width length height min_z is_quadruped [] = Ok (tt, bones)
    /\ links bones = if is_quadruped then quadruped_links else humanoid_links.
Proof.
  destruct is_quadruped.
  - apply quadruped_run.
  - apply humanoid_run.
Qed.

(** C1, amended: for every world matrix, every bounding dimensions and every
    ground level, the humanoid build produces exactly 16 bones, named (in
    order of creation) as the humanoid topology lists them, and the quadruped
    build (no tail bone) exactly 15 bones with the quadruped names; no other
    name appears. *)
Theorem build_bone_names :
  (exists bones,
      rig_bones world_mat width length height min_z false [] = Ok (tt, bones)
      /\ bone_names bones = humanoid_bone_names
      /\ List.length bones = 16%nat)
  /\ (exists bones,
        rig_bones world_mat width length height min_z true [] = Ok (tt, bones)
        /\ bone_names bones = quadruped_bone_names
        /\ List.length bones = 15%nat).
Proof.
  split.
  - destruct humanoid_run as [bones [Hrun Hl]].
    exists bones. repeat split; trivial.
    + rewrite links_names, Hl. reflexivity.
    + rewrite links_length, Hl. reflexivity.
  - destruct quadruped_run as [bones [Hrun Hl]].
    exists bones. repeat split; trivial.
    + rewrite links_names, Hl. reflexivity.
    + rewrite links_length, Hl. reflexivity.
Qed.

(** C5 (the code departs from it): in the quadruped build "Neck" starts
    0.1 * height above the shoulder anchor (the tail of "Spine") and ends at
    the neck-top, which lies over the shoulder anchor at 0.8 times the z of
    [max_bb_world]; "Head" starts at that neck-top and ends at
    (pelvis_x, pelvis_y + 0.5, max_bb_world.z).  The y of that end is never
    the y of the mesh centre, and it is the y of the shoulder anchor, where
    the comment of line 174 puts it, only for a mesh of length 2. *)
Theorem quadruped_head_tail_forward :
  let shoulder_center :=
    mkVector pelvis_x (pelvis_y + 0.25 * length) (min_z + 0.7 * height) in
  let neck_top := mkVector pelvis_x (pelvis_y + 0.25 * length) (top * 0.8) in
  exists bones spine neck_bone head_bone,
    rig_bones world_mat width length height min_z true [] = Ok (tt, bones)
    /\ nth_error bones 0 = Some spine
    /\ nth_error bones 1 = Some neck_bone
    /\ nth_error bones 2 = Some head_bone
    /\ name spine = "Spine"%string /\ tail spine = shoulder_center
    /\ name neck_bone = "Neck"%string
    /\ head neck_bone = shoulder_center +v mkVector 0 0 (0.1 * height)
    /\ tail neck_bone = neck_top
    /\ name head_bone = "Head"%string
    /\ head head_bone = neck_top
    /\ tail head_bone = mkVector pelvis_x (pelvis_y + 0.5) top
    /\ ~ vy (tail head_bone) == pelvis_y
    /\ (vy (tail head_bone) == vy (tail spine) <-> length == 2).
Proof.
  intros. do 4 eexists. split; [run_edit; reflexivity|].
  repeat (split; [reflexivity|]).
  cbn [tail vy]. subst pelvis_y. split; [lra|]. split; intros H; lra.
Qed.

(** C7: in the skeleton either branch produces, every parent link points to
    a bone created strictly earlier in that skeleton, and "Spine" (created
    first) is the one bone without a parent. *)
Theorem build_parents_first (is_quadruped : bool) :
  exists bones,
    rig_bones world_mat width length height min_z is_quadruped [] = Ok (tt, bones)
    /\ parents_first bones
    /\ single_root "Spine" bones.
Proof.
  destruct (rig_bones_total is_quadruped) as [bones [Hrun Hl]].
  exists bones. split; [exact Hrun|]. split.
  - apply parents_first_of_links. rewrite Hl. now destruct is_quadruped.
  - destruct is_quadruped.
    + apply single_root_of_links with
        (rest := [("Neck", 0); ("Head", 1);
                  ("upper_arm.L", 0); ("upper_arm.R", 0);
                  ("lower_arm.L", 3); ("lower_arm.R", 4);
                  ("front_foot.L", 5); ("front_foot.R", 6);
                  ("thigh.L", 0); ("thigh.R", 0);
                  ("shin.L", 9); ("shin.R", 10);
                  ("hind_foot.L", 11); ("hind_foot.R", 12)]%string%nat).
      exact Hl.
    + apply single_root_of_links with
        (rest := [("Spine.001", 0); ("Spine.002", 1); ("Head", 2);
                  ("upper_arm.L", 1); ("lower_arm.L", 4);
                  ("upper_arm.R", 1); ("lower_arm.R", 6);
                  ("hand.L", 5); ("hand.R", 7);
                  ("thigh.L", 0); ("thigh.R", 0);
                  ("shin.L", 10); ("shin.R", 11);
                  ("foot.L", 12); ("foot.R", 13)]%string%nat).
      exact Hl.
Qed.

Lemma build_rig_bones (is_quadruped : bool) (data : BlendData)
      (bones : list EditBone) :
  rig_bones world_mat width length height min_z is_quadruped [] = Ok (tt, bones) ->
  exists arm_name data',
    build_rig world_mat width length height min_z is_quadruped data
    = Ok (mkArmature arm_name bones, data').
Proof.
  intros Hrun. unfold build_rig, armatures_new.
  cbn [edit_bones arm_name]. rewrite Hrun. cbn [rbind snd].
  eexists; eexists; reflexivity.
Qed.

End Build.

(** C1, as stated, fails: on a 1 x 2 x 2 mesh standing on the ground the
    humanoid build does not end with 15 bones, nor the quadruped build with
    14. *)
Lemma bone_count_not_15_14 :
  ~ (exists bones,
        rig_bones identity_matrix 1 2 2 0 false [] = Ok (tt, bones)
        /\ List.length bones = 15%nat)
  /\ ~ (exists bones,
          rig_bones identity_matrix 1 2 2 0 true [] = Ok (tt, bones)
          /\ List.length bones = 14%nat).
Proof.
  split; intros [bones [Hrun Hlen]].
  - destruct (humanoid_run identity_matrix 1 2 2 0) as [bones' [Hrun' Hl]].
    rewrite Hrun in Hrun'. injection Hrun' as <-.
    rewrite links_length, Hl in Hlen. discriminate Hlen.
  - destruct (quadruped_run identity_matrix 1 2 2 0) as [bones' [Hrun' Hl]].
    rewrite Hrun in Hrun'. injection Hrun' as <-.
    rewrite links_length, Hl in Hlen. discriminate Hlen.
Qed.

(** C6: with width 1, length 2, height 2, ground level 0 and the mesh centred
    at the origin (identity world matrix), the humanoid build puts the pelvis
    at z = 0 + 0.7 * 2 = 1.4, and the root bone "Spine" starts at
    (0, 0, 1.4). *)
Theorem humanoid_spine_head_scenario :
  exists bones spine,
    rig_bones identity_matrix 1 2 2 0 false [] = Ok (tt, bones)
    /\ nth_error bones 0 = Some spine
    /\ name spine = "Spine"%string
    /\ parent spine = None
    /\ vz (head spine) = 0 + 0.7 * 2
    /\ veq (head spine) (mkVector 0 0 1.4).
Proof.
  eexists; eexists. split; [run_edit; reflexivity|].
  split; [reflexivity|].
  cbn [name parent head vz vx vy].
  repeat split; reflexivity.
Qed.

(** On a 1 x 4 x 2 mesh standing on the ground at the origin the shoulder
    anchor is at y = 1 and the centre at y = 0; the quadruped "Head" bone
    ends at (0, 0.5, 2), over neither. *)
Example quadruped_head_scenario :
  exists bones spine head_bone,
    rig_bones identity_matrix 1 4 2 0 true [] = Ok (tt, bones)
    /\ nth_error bones 0 = Some spine
    /\ nth_error bones 2 = Some head_bone
    /\ name head_bone = "Head"%string
    /\ veq (tail head_bone) (mkVector 0 0.5 2)
    /\ vy (tail spine) == 1
    /\ pelvis_y_of identity_matrix 1 4 2 0 == 0.
Proof.
  do 3 eexists. split; [run_edit; reflexivity|].
  split; [reflexivity|]. split; [reflexivity|]. split; [reflexivity|].
  repeat split; vm_compute; reflexivity.
Qed.

(** A second run in the state the first one leaves: the armature is called
    "AutoRigArmature.001" and its bones are those of the first. *)
Example build_rig_twice :
  exists bones data1 data2,
    build_rig identity_matrix 1 2 2 0 true [] =
      Ok (mkArmature "AutoRigArmature" bones, data1)
    /\ build_rig identity_matrix 1 2 2 0 true data1 =
         Ok (mkArmature "AutoRigArmature.001" bones, data2)
    /\ map arm_name data2 = ["AutoRigArmature"; "AutoRigArmature.001"]%string.
Proof.
  do 3 eexists. split; [vm_compute; reflexivity|].
  split; vm_compute; reflexivity.
Qed.

(* ------------------------------------------------------------------ *)
(** ** Two runs of the build *)





(* ------------------------------------------------------------------ *)
(** ** The entry point *)

(** C8 (the code departs from it): started with the script name alone, the
    guard raises [IndexError] on [sys.argv[1]] and prints nothing. *)
Theorem main_without_argument (script : string) :
  main [script] = Raise IndexError.
Proof.
  reflexivity.
Qed.

Example main_empty_argument :
  main ["auto_rig_glb.py"; ""]%string = Ok (Prints "Need filepath!").
Proof. reflexivity. Qed.

Example main_with_argument :
  main ["auto_rig_glb.py"; "dog.glb"]%string = Ok (Call_auto_rig_glb "dog.glb").
Proof. reflexivity. Qed.

(* ------------------------------------------------------------------ *)
(** ** From the mesh to the bones *)

(** The analysis and the build together never raise: every mesh gets an
    armature holding one of the two skeletons. *)
Lemma auto_rig_glb_returns (mesh_obj : MeshObject) (data : BlendData) :
  exists arm data',
    auto_rig_glb mesh_obj data = Ok (arm, data')
    /\ (bone_names (edit_bones arm) = humanoid_bone_names
        \/ bone_names (edit_bones arm) = quadruped_bone_names).
Proof.
  unfold auto_rig_glb.
  destruct (classify_total (vz (dimensions mesh_obj))
              (map (mat_mul_vec (matrix_world mesh_obj)) (vertices mesh_obj)))
    as [cls Hc].
  rewrite Hc. cbn [rbind].
  destruct (rig_bones_total (matrix_world mesh_obj)
              (vx (dimensions mesh_obj)) (vy (dimensions mesh_obj))
              (vz (dimensions mesh_obj)) (min_z cls) (is_quadruped cls))
    as [bones [Hrun Hl]].
  destruct (build_rig_bones _ _ _ _ _ _ data _ Hrun) as [n [data' Hb]].
  exists (mkArmature n bones), data'. split; [exact Hb|].
  cbn [edit_bones]. rewrite links_names, Hl.
  destruct (is_quadruped cls); [right | left]; reflexivity.
Qed.

(** A 1 x 2 x 2 mesh with ground contact on the left side only: Humanoid,
    and "Spine" starts at (0, 0, 1.4). *)
Example auto_rig_glb_left_only :
  let mesh_obj :=
    mkMeshObject (mkVector 1 2 2) identity_matrix
      [mkVector (-0.5) (-1) 0; mkVector (-0.5) 1 0;
       mkVector 0.5 1 2; mkVector 0.5 (-1) 2] in
  exists arm data' spine,
    auto_rig_glb mesh_obj [] = Ok (arm, data')
    /\ List.length (edit_bones arm) = 16%nat
    /\ nth_error (edit_bones arm) 0 = Some spine
    /\ name spine = "Spine"%string
    /\ veq (head spine) (mkVector 0 0 1.4).
Proof.
  intros mesh_obj. do 3 eexists.
  split; [vm_compute; reflexivity|].
  repeat split; reflexivity.
Qed.

(* ------------------------------------------------------------------ *)
(** ** Further properties of the analysis *)

(** X1: the count of foot groups of lines 62-66 is 0, 1 or 2, and it is 2
    exactly when both sides have a foot vertex; the branch of line 77
    ([num_feet >= 3]) is never taken. *)
Theorem num_feet_at_most_two (left_foot_verts right_foot_verts : list Vector) :
  (num_feet_of left_foot_verts right_foot_verts <= 2)%nat
  /\ (num_feet_of left_foot_verts right_foot_verts = 2%nat
      <-> left_foot_verts <> [] /\ right_foot_verts <> [])
  /\ (3 <=? num_feet_of left_foot_verts right_foot_verts)%nat = false.
Proof.
  unfold num_feet_of.
  destruct left_foot_verts as [|l ls], right_foot_verts as [|r rs];
    cbn; repeat split; try lia; try discriminate; try tauto;
    intros [H1 H2]; congruence.
Qed.

(** X2: a mesh that lies on one side of the plane x = 0 (no vertex with
    x < 0, or none with x > 0) is classified Humanoid, whatever else its
    shape. *)
Theorem classify_one_sided (height : Q) (verts : list Vector) :
  (forall v, In v verts -> 0 <= vx v) \/ (forall v, In v verts -> vx v <= 0) ->
  exists cls,
    classify height verts = Ok cls
    /\ is_quadruped cls = false
    /\ char_type cls = Humanoid.
Proof.
  intros Hside. destruct verts as [|v0 verts].
  - eexists. split; [apply classify_empty|]. split; reflexivity.
  - destruct (classify_sound height (v0 :: verts)) as [cls [Hc [_ [Hq Ht]]]];
      [discriminate|].
    exists cls. split; [exact Hc|].
    assert (Hfalse : is_quadruped cls = false).
    { destruct (is_quadruped cls); [|reflexivity]. exfalso.
      destruct (proj1 Hq eq_refl)
        as [g [lr [rr [tr [_ [[vl [Hl [_ Hxl]]] [[vr [Hr [_ Hxr]]] _]]]]]]].
      destruct Hside as [Hs | Hs].
      - specialize (Hs vl Hl). lra.
      - specialize (Hs vr Hr). lra. }
    split; [exact Hfalse|]. rewrite Ht, Hfalse. reflexivity.
Qed.

Lemma classify_one_sided_witness :
  let verts := [mkVector 0.2 (-1) 0; mkVector 0.2 1 0; mkVector 0 0 1] in
  ((forall v, In v verts -> 0 <= vx v) \/ (forall v, In v verts -> vx v <= 0))
  /\ exists cls,
       classify 1 verts = Ok cls
       /\ is_quadruped cls = false
       /\ char_type cls = Humanoid.
Proof.
  intros verts.
  assert (H : (forall v, In v verts -> 0 <= vx v)
              \/ (forall v, In v verts -> vx v <= 0)).
  { left. intros v [<-|[<-|[<-|[]]]]; cbn; lra. }
  split; [exact H|]. exact (classify_one_sided 1 verts H).
Defined.



(** X4: the analysis depends only on which vertices occur, not on how
    often or in what order: two vertex sequences with the same members get
    the same body type and the same ground level. *)
Theorem classify_same_members (height : Q) (verts verts' : list Vector) :
  (forall v, In v verts <-> In v verts') ->
  exists cls cls',
    classify height verts = Ok cls
    /\ classify height verts' = Ok cls'
    /\ char_type cls = char_type cls'
    /\ is_quadruped cls = is_quadruped cls'
    /\ min_z cls == min_z cls'.
Proof.
  intros Hm. destruct verts as [|v0 verts].
  - destruct verts' as [|w0 verts'].
    + do 2 eexists. split; [apply classify_empty|].
      split; [apply classify_empty|]. repeat split; reflexivity.
    + exfalso. apply (proj2 (Hm w0)). now left.
  - assert (Hne' : verts' <> []).
    { intros ->. apply (proj1 (Hm v0)). now left. }
    destruct (classify_sound height (v0 :: verts)) as [cls [Hc [Hg [Hq Ht]]]];
      [discriminate|].
    destruct (classify_sound height verts' Hne') as [cls' [Hc' [Hg' [Hq' Ht']]]].
    exists cls, cls'. split; [exact Hc|]. split; [exact Hc'|].
    assert (Eq : is_quadruped cls = is_quadruped cls').
    { destruct (is_quadruped cls) eqn:E, (is_quadruped cls') eqn:E'; trivial.
      - symmetry. apply Hq'.
        apply (wide_stance_members height (v0 :: verts)); trivial.
        now apply Hq.
      - apply Hq. apply (wide_stance_members height verts').
        + intros v. symmetry. apply Hm.
        + now apply Hq'. }
    split; [rewrite Ht, Ht', Eq; reflexivity|]. split; [exact Eq|].
    apply (ground_level_unique (v0 :: verts)); trivial.
    apply (ground_level_members verts'); trivial.
    intros v. symmetry. apply Hm.
Qed.

Lemma classify_same_members_witness :
  let verts := [mkVector (-0.2) (-1) 0; mkVector 0.2 1 0] in
  let verts' := [mkVector 0.2 1 0; mkVector (-0.2) (-1) 0; mkVector 0.2 1 0] in
  (forall v, In v verts <-> In v verts')
  /\ exists cls cls',
       classify 1 verts = Ok cls
       /\ classify 1 verts' = Ok cls'
       /\ char_type cls = char_type cls'
       /\ is_quadruped cls = is_quadruped cls'
       /\ min_z cls == min_z cls'.
Proof.
  intros verts verts'.
  assert (Hm : forall v, In v verts <-> In v verts').
  { intros v. unfold verts, verts'. cbn. tauto. }
  split; [exact Hm|]. exact (classify_same_members 1 verts verts' Hm).
Defined.

(* ------------------------------------------------------------------ *)
(** ** Change of coordinates *)

Section AxisMap.

Variables s c dy a dz height height' : Q.
Hypothesis s_nonzero : ~ s == 0.
Hypothesis c_positive : 0 < c.
Hypothesis a_positive : 0 < a.
Hypothesis height_scaled : height' == a * height.

Variables verts verts' : list Vector.
Hypothesis images :
  forall v, In v verts -> exists w, In w verts' /\ axis_related s c dy a dz v w.
Hypothesis preimages :
  forall w, In w verts' -> exists v, In v verts /\ axis_related s c dy a dz v w.

Lemma ground_level_axis (g : Q) :
  ground_level verts g -> ground_level verts' (a * g + dz).
Proof.
  intros [[v [Hv Ev]] Hle]. split.
  - destruct (images v Hv) as [w [Hw [_ [_ Rz]]]].
    exists w. split; [exact Hw|]. rewrite Rz, Ev. reflexivity.
  - intros w Hw. destruct (preimages w Hw) as [v' [Hv' [_ [_ Rz]]]].
    rewrite Rz. specialize (Hle v' Hv'). nra.
Qed.

Lemma in_foot_band_axis (g : Q) (v w : Vector) :
  axis_related s c dy a dz v w ->
  in_foot_band height g v <-> in_foot_band height' (a * g + dz) w.
Proof.
  intros [_ [_ Rz]]. unfold in_foot_band. rewrite Rz, height_scaled.
  split; intros H; nra.
Qed.

(** A cluster (the foot band on the side [P]) and its image. *)
Lemma cluster_axis (P P' : Q -> Prop) (g : Q) :
  (forall v w, axis_related s c dy a dz v w -> P (vx v) <-> P' (vx w)) ->
  (forall v,
      In v verts /\ in_foot_band height g v /\ P (vx v) ->
      exists w,
        (In w verts' /\ in_foot_band height' (a * g + dz) w /\ P' (vx w))
        /\ axis_related s c dy a dz v w)
  /\ (forall w,
         In w verts' /\ in_foot_band height' (a * g + dz) w /\ P' (vx w) ->
         exists v,
           (In v verts /\ in_foot_band height g v /\ P (vx v))
           /\ axis_related s c dy a dz v w).
Proof.
  intros Hside. split.
  - intros v [Hv [Hb Hp]]. destruct (images v Hv) as [w [Hw HR]].
    exists w. split; [|exact HR]. split; [exact Hw|]. split.
    + now apply (in_foot_band_axis g v w HR).
    + now apply (Hside v w HR).
  - intros w [Hw [Hb Hp]]. destruct (preimages w Hw) as [v [Hv HR]].
    exists v. split; [|exact HR]. split; [exact Hv|]. split.
    + now apply (in_foot_band_axis g v w HR).
    + now apply (Hside v w HR).
Qed.

Lemma y_range_is_axis (S S' : Vector -> Prop) (r : Q) :
  (forall v, S v -> exists w, S' w /\ axis_related s c dy a dz v w) ->
  (forall w, S' w -> exists v, S v /\ axis_related s c dy a dz v w) ->
  y_range_is S r -> y_range_is S' (c * r).
Proof.
  intros Himg Hpre [lo [hi [Hlo [Hhi [Hb Hr]]]]].
  destruct (Himg lo Hlo) as [lo' [Hlo' [_ [Rlo _]]]].
  destruct (Himg hi Hhi) as [hi' [Hhi' [_ [Rhi _]]]].
  exists lo', hi'. split; [exact Hlo'|]. split; [exact Hhi'|]. split.
  - intros w Hw. destruct (Hpre w Hw) as [v [Hv [_ [Rv _]]]].
    destruct (Hb v Hv) as [B1 B2]. rewrite Rlo, Rhi, Rv. split; nra.
  - rewrite Rlo, Rhi, Hr. ring.
Qed.

Lemma side_kept :
  0 < s ->
  forall v w, axis_related s c dy a dz v w ->
              (vx v < 0 <-> vx w < 0) /\ (0 < vx v <-> 0 < vx w).
Proof.
  intros Hs v w [Rx _]. rewrite Rx. repeat split; intros H; nra.
Qed.

Lemma side_swapped :
  s < 0 ->
  forall v w, axis_related s c dy a dz v w ->
              (vx v < 0 <-> 0 < vx w) /\ (0 < vx v <-> vx w < 0).
Proof.
  intros Hs v w [Rx _]. rewrite Rx. repeat split; intros H; nra.
Qed.

Lemma wide_stance_axis :
  wide_stance height verts -> wide_stance height' verts'.
Proof.
  intros [g [lr [rr [tr [Hg [[vl Hvl] [[vr Hvr] [Hl [Hr [Ht [H1 H2]]]]]]]]]]].
  assert (Htot : y_range_is (fun w => In w verts') (c * tr)).
  { apply (y_range_is_axis (fun v => In v verts)); trivial. }
  assert (Hg' : ground_level verts' (a * g + dz)) by now apply ground_level_axis.
  destruct (Qlt_le_dec 0 s) as [Hpos | Hneg].
  - destruct (cluster_axis (fun x => x < 0) (fun x => x < 0) g
                (fun v w HR => proj1 (side_kept Hpos v w HR))) as [Li Lp].
    destruct (cluster_axis (fun x => 0 < x) (fun x => 0 < x) g
                (fun v w HR => proj2 (side_kept Hpos v w HR))) as [Ri Rp].
    exists (a * g + dz), (c * lr), (c * rr), (c * tr).
    split; [exact Hg'|].
    split; [destruct (Li vl Hvl) as [w [Hw _]]; now exists w|].
    split; [destruct (Ri vr Hvr) as [w [Hw _]]; now exists w|].
    split; [exact (y_range_is_axis _ _ lr Li Lp Hl)|].
    split; [exact (y_range_is_axis _ _ rr Ri Rp Hr)|].
    split; [exact Htot|]. split; nra.
  - assert (Hs : s < 0).
    { destruct (Qeq_dec s 0) as [E|N]; [contradiction|].
      apply Qle_lteq in Hneg as [Hlt|E]; [exact Hlt | contradiction]. }
    destruct (cluster_axis (fun x => x < 0) (fun x => 0 < x) g
                (fun v w HR => proj1 (side_swapped Hs v w HR))) as [Li Lp].
    destruct (cluster_axis (fun x => 0 < x) (fun x => x < 0) g
                (fun v w HR => proj2 (side_swapped Hs v w HR))) as [Ri Rp].
    exists (a * g + dz), (c * rr), (c * lr), (c * tr).
    split; [exact Hg'|].
    split; [destruct (Ri vr Hvr) as [w [Hw _]]; now exists w|].
    split; [destruct (Li vl Hvl) as [w [Hw _]]; now exists w|].
    split; [exact (y_range_is_axis _ _ rr Ri Rp Hr)|].
    split; [exact (y_range_is_axis _ _ lr Li Lp Hl)|].
    split; [exact Htot|]. split; nra.
Qed.

End AxisMap.

Lemma axis_map_related (s c dy a dz : Q) (v : Vector) :
  axis_related s c dy a dz v (axis_map s c dy a dz v).
Proof.
  unfold axis_related, axis_map. cbn. repeat split; reflexivity.
Qed.

Lemma axis_related_inverse (s c dy a dz : Q) (v w : Vector) :
  ~ s == 0 -> 0 < c -> 0 < a ->
  axis_related s c dy a dz v w ->
  axis_related (/ s) (/ c) (- dy / c) (/ a) (- dz / a) w v.
Proof.
  intros Hs Hc Ha [Rx [Ry Rz]]. unfold axis_related.
  rewrite Rx, Ry, Rz. repeat split; field; trivial.
  - intros E. rewrite E in Hc. now apply (Qlt_irrefl 0).
  - intros E. rewrite E in Ha. now apply (Qlt_irrefl 0).
Qed.

Lemma wide_stance_axis_map (s c dy a dz height : Q) (verts : list Vector) :
  ~ s == 0 -> 0 < c -> 0 < a ->
  wide_stance height verts
  <-> wide_stance (a * height) (map (axis_map s c dy a dz) verts).
Proof.
  intros Hs Hc Ha.
  assert (Himg : forall v, In v verts ->
                   exists w, In w (map (axis_map s c dy a dz) verts)
                             /\ axis_related s c dy a dz v w).
  { intros v Hv. exists (axis_map s c dy a dz v).
    split; [now apply in_map | apply axis_map_related]. }
  assert (Hpre : forall w, In w (map (axis_map s c dy a dz) verts) ->
                   exists v, In v verts /\ axis_related s c dy a dz v w).
  { intros w Hw. apply in_map_iff in Hw as [v [<- Hv]].
    exists v. split; [exact Hv | apply axis_map_related]. }
  split.
  - apply (wide_stance_axis s c dy a dz height (a * height)); trivial.
    reflexivity.
  - assert (Hs' : ~ / s == 0).
    { intros E. apply Hs. rewrite <- (Qinv_involutive s), E. reflexivity. }
    apply (wide_stance_axis (/ s) (/ c) (- dy / c) (/ a) (- dz / a)
                            (a * height) height); trivial.
    + now apply Qinv_lt_0_compat.
    + now apply Qinv_lt_0_compat.
    + field. intros E. rewrite E in Ha. now apply (Qlt_irrefl 0).
    + intros w Hw. destruct (Hpre w Hw) as [v [Hv HR]].
      exists v. split; [exact Hv|]. now apply axis_related_inverse.
    + intros v Hv. destruct (Himg v Hv) as [w [Hw HR]].
      exists w. split; [exact Hw|]. now apply axis_related_inverse.
Qed.

(** X5: the body type does not depend on the unit, the position along y and
    z, or the handedness of the coordinates.  Scaling x by a non-zero factor
    (a negative one mirrors left and right), scaling and shifting y by a
    positive factor, and scaling and shifting z by a positive factor [a],
    with the height scaled by [a] as well, leaves the body type as it is and
    maps the ground level along with z. *)
Theorem classify_axis_map (s c dy a dz height : Q) (verts : list Vector) :
  ~ s == 0 -> 0 < c -> 0 < a -> verts <> [] ->
  exists cls cls',
    classify height verts = Ok cls
    /\ classify (a * height) (map (axis_map s c dy a dz) verts) = Ok cls'
    /\ char_type cls' = char_type cls
    /\ min_z cls' == a * min_z cls + dz.
Proof.
  intros Hs Hc Ha Hne.
  pose proof (map_nonempty (axis_map s c dy a dz) verts Hne) as Hne'.
  destruct (classify_sound height verts Hne) as [cls [Hcls [Hg [Hq Ht]]]].
  destruct (classify_sound (a * height) _ Hne') as [cls' [Hcls' [Hg' [Hq' Ht']]]].
  exists cls, cls'. split; [exact Hcls|]. split; [exact Hcls'|]. split.
  - pose proof (wide_stance_axis_map s c dy a dz height verts Hs Hc Ha) as Hw.
    rewrite Ht, Ht'.
    destruct (is_quadruped cls) eqn:E, (is_quadruped cls') eqn:E'; trivial.
    + assert (F : false = true) by (apply Hq', Hw, Hq; reflexivity).
      discriminate F.
    + assert (F : false = true) by (apply Hq, Hw, Hq'; reflexivity).
      discriminate F.
  - apply (ground_level_unique (map (axis_map s c dy a dz) verts)); trivial.
    apply (ground_level_axis s c dy a dz Ha verts); trivial.
    + intros v Hv. exists (axis_map s c dy a dz v).
      split; [now apply in_map | apply axis_map_related].
    + intros w Hw. apply in_map_iff in Hw as [v [<- Hv]].
      exists v. split; [exact Hv | apply axis_map_related].
Qed.

Lemma classify_axis_map_witness :
  let verts := [mkVector (-0.2) (-1) 0; mkVector (-0.2) 1 0;
                mkVector 0.2 (-1) 0; mkVector 0.2 1 0; mkVector 0 0 1] in
  exists cls cls',
    classify 1 verts = Ok cls
    /\ classify (100 * 1) (map (axis_map (-100) 100 5 100 3) verts) = Ok cls'
    /\ char_type cls' = char_type cls
    /\ min_z cls' == 100 * min_z cls + 3.
Proof.
  intros verts.
  apply (classify_axis_map (-100) 100 5 100 3 1 verts).
  - intros E. discriminate E.
  - reflexivity.
  - reflexivity.
  - discriminate.
Defined.

Example classify_axis_map_dog :
  classify (100 * 1)
           (map (axis_map (-100) 100 5 100 3)
                [mkVector (-0.2) (-1) 0; mkVector (-0.2) 1 0;
                 mkVector 0.2 (-1) 0; mkVector 0.2 1 0; mkVector 0 0 1])
  = Ok (mkClassification (100 * 0 + 3) true Quadruped).
Proof. reflexivity. Qed.

(* ------------------------------------------------------------------ *)
(** ** Invariants of [create_bone] *)

(** X6: [create_bone] keeps a skeleton well formed.  If parents come first
    and names are unique before the call, and the parent handed over (if
    any) is a bone of the skeleton, the same holds after it: the new bone
    comes after its parent, and the name the host gives it is new even when
    the requested one is taken. *)
Theorem create_bone_keeps_skeleton_ok
        (n : string) (h t : Vector) (par : option BoneRef)
        (bones bones' : list EditBone) (bone : BoneRef) :
  skeleton_ok bones ->
  (forall p, par = Some p -> (p < List.length bones)%nat) ->
  create_bone n h t par bones = Ok (bone, bones') ->
  skeleton_ok bones'.
Proof.
  intros [Hpf Hnd] Hp Hrun. split.
  - exact (create_bone_parents_first n h t par bones bones' bone Hpf Hp Hrun).
  - rewrite create_bone_run in Hrun. injection Hrun as _ <-.
    unfold bone_names in *. rewrite map_app. cbn [map name].
    apply NoDup_app.
    + exact Hnd.
    + constructor; [intros []|constructor].
    + intros x Hx [<-|[]]. revert Hx. apply unique_name_fresh.
Qed.

Lemma create_bone_keeps_skeleton_ok_witness :
  let bones := [mkEditBone "Spine" zero_vector (mkVector 0 0 1) None false] in
  skeleton_ok
    (bones ++ [mkEditBone "Spine.001" (mkVector 0 0 1) (mkVector 0 0 2)
                          (Some 0%nat) false]).
Proof.
  intros bones.
  apply (create_bone_keeps_skeleton_ok
           "Spine" (mkVector 0 0 1) (mkVector 0 0 2) (Some 0%nat)
           bones _ 1%nat).
  - split.
    + intros [|[|i]] b p Hn Hb; cbn in Hn; try discriminate Hn.
      injection Hn as <-. discriminate Hb.
    + cbn. constructor; [intros []|constructor].
  - intros p [= <-]. cbn. lia.
  - reflexivity.
Defined.

(* ------------------------------------------------------------------ *)
(** ** Shape of the two skeletons *)

(** X7: in either skeleton the bone names are pairwise different and no
    bone is connected to its parent ([use_connect] is off throughout). *)
Theorem build_names_distinct
        (world_mat : Matrix) (width length height min_z : Q)
        (is_quadruped : bool) :
  exists bones,
    rig_bones world_mat width length height min_z is_quadruped [] = Ok (tt, bones)
    /\ NoDup (bone_names bones)
    /\ Forall (fun bone => use_connect bone = false) bones.
Proof.
  destruct is_quadruped; eexists; (split; [run_edit; reflexivity|]); split.
  - cbn. repeat (constructor; [cbn; intuition discriminate|]). constructor.
  - each_bone ltac:(reflexivity).
  - cbn. repeat (constructor; [cbn; intuition discriminate|]). constructor.
  - each_bone ltac:(reflexivity).
Qed.

(** X8: the chains of the humanoid skeleton are unbroken.  Every bone other
    than the root, the upper arms and the thighs starts exactly where its
    parent ends. *)
Theorem humanoid_chains_joined
        (world_mat : Matrix) (width length height min_z : Q) :
  exists bones,
    rig_bones world_mat width length height min_z false [] = Ok (tt, bones)
    /\ Forall (fun bone => In (name bone) humanoid_detached
                           \/ joined_to_parent bones bone) bones.
Proof.
  eexists. split; [run_edit; reflexivity|].
  each_bone ltac:(first [left; name_listed
                        | right; exact I
                        | right; exact eq_refl]).
Qed.

(** X9: the chains of the quadruped skeleton are unbroken.  Every bone other
    than the root, "Neck", the upper arms and the thighs starts exactly where
    its parent ends. *)
Theorem quadruped_chains_joined
        (world_mat : Matrix) (width length height min_z : Q) :
  exists bones,
    rig_bones world_mat width length height min_z true [] = Ok (tt, bones)
    /\ Forall (fun bone => In (name bone) quadruped_detached
                           \/ joined_to_parent bones bone) bones.
Proof.
  eexists. split; [run_edit; reflexivity|].
  each_bone ltac:(first [left; name_listed
                        | right; exact I
                        | right; exact eq_refl]).
Qed.

(** X10: both skeletons are symmetric.  Each limb segment exists as a [.L]
    and an [.R] bone, and the two are mirror images of each other in the
    plane x = pelvis_x, for every world matrix and every dimensions. *)
Theorem build_mirror_symmetric
        (world_mat : Matrix) (width length height min_z : Q) :
  let pelvis_x := pelvis_x_of world_mat width length height min_z in
  (exists bones,
      rig_bones world_mat width length height min_z false [] = Ok (tt, bones)
      /\ Forall (mirror_pair pelvis_x bones) humanoid_limbs)
  /\ (exists bones,
        rig_bones world_mat width length height min_z true [] = Ok (tt, bones)
        /\ Forall (mirror_pair pelvis_x bones) quadruped_limbs).
Proof.
  intros pelvis_x. subst pelvis_x.
  split; eexists; (split; [run_edit; reflexivity|]).
  - apply Forall_cons; [mirror_at 4%nat 6%nat|].
    apply Forall_cons; [mirror_at 5%nat 7%nat|].
    apply Forall_cons; [mirror_at 8%nat 9%nat|].
    apply Forall_cons; [mirror_at 10%nat 11%nat|].
    apply Forall_cons; [mirror_at 12%nat 13%nat|].
    apply Forall_cons; [mirror_at 14%nat 15%nat|].
    apply Forall_nil.
  - apply Forall_cons; [mirror_at 3%nat 4%nat|].
    apply Forall_cons; [mirror_at 5%nat 6%nat|].
    apply Forall_cons; [mirror_at 7%nat 8%nat|].
    apply Forall_cons; [mirror_at 9%nat 10%nat|].
    apply Forall_cons; [mirror_at 11%nat 12%nat|].
    apply Forall_cons; [mirror_at 13%nat 14%nat|].
    apply Forall_nil.
Qed.

(** X11: the [.L] bones are on the +x side.  For a non-negative width, both
    ends of every bone named [.L] have x >= pelvis_x and both ends of every
    bone named [.R] have x <= pelvis_x, in either skeleton. *)
Theorem build_left_is_plus_x
        (world_mat : Matrix) (width length height min_z : Q)
        (is_quadruped : bool) :
  0 <= width ->
  let pelvis_x := pelvis_x_of world_mat width length height min_z in
  exists bones,
    rig_bones world_mat width length height min_z is_quadruped [] = Ok (tt, bones)
    /\ Forall (fun bone =>
                 (has_suffix ".L" (name bone) = true ->
                  pelvis_x <= vx (head bone) /\ pelvis_x <= vx (tail bone))
                 /\ (has_suffix ".R" (name bone) = true ->
                     vx (head bone) <= pelvis_x /\ vx (tail bone) <= pelvis_x))
              bones.
Proof.
  intros Hw pelvis_x. subst pelvis_x.
  destruct is_quadruped; eexists; (split; [run_edit; reflexivity|]);
    each_bone ltac:(split; intros Hside;
                    first [discriminate Hside
                          | cbn [head tail vx vy vz]; split; lra]).
Qed.

Lemma build_left_is_plus_x_witness :
  exists bones,
    rig_bones identity_matrix 1 2 2 0 false [] = Ok (tt, bones)
    /\ Forall (fun bone =>
                 (has_suffix ".L" (name bone) = true ->
                  pelvis_x_of identity_matrix 1 2 2 0 <= vx (head bone)
                  /\ pelvis_x_of identity_matrix 1 2 2 0 <= vx (tail bone))
                 /\ (has_suffix ".R" (name bone) = true ->
                     vx (head bone) <= pelvis_x_of identity_matrix 1 2 2 0
                     /\ vx (tail bone) <= pelvis_x_of identity_matrix 1 2 2 0))
              bones.
Proof.
  apply (build_left_is_plus_x identity_matrix 1 2 2 0 false).
  discriminate.
Defined.

(** X12: the skeletons are made of vertical bones.  In the humanoid one
    every bone but the two feet has the same x and y at both ends; in the
    quadruped one every bone but "Spine" and "Head". *)
Theorem build_bones_vertical
        (world_mat : Matrix) (width length height min_z : Q) :
  (exists bones,
      rig_bones world_mat width length height min_z false [] = Ok (tt, bones)
      /\ Forall (fun bone => In (name bone) humanoid_slanted \/ vertical bone)
                bones)
  /\ (exists bones,
        rig_bones world_mat width length height min_z true [] = Ok (tt, bones)
        /\ Forall (fun bone => In (name bone) quadruped_slanted \/ vertical bone)
                  bones).
Proof.
  split; eexists; (split; [run_edit; reflexivity|]);
    each_bone ltac:(first [left; name_listed
                          | right; unfold vertical; cbn [head tail vx vy vz];
                            split; lra]).
Qed.

(** X13: the feet stand on the ground.  In either skeleton every foot bone
    starts 0.05 * height above the ground level and ends exactly at the
    ground level, and there are two such bones in the humanoid skeleton and
    four in the quadruped one. *)
Theorem build_feet_on_ground
        (world_mat : Matrix) (width length height min_z : Q)
        (is_quadruped : bool) :
  exists bones,
    rig_bones world_mat width length height min_z is_quadruped [] = Ok (tt, bones)
    /\ Forall (fun bone =>
                 In (name bone) foot_names ->
                 vz (head bone) = min_z + 0.05 * height
                 /\ vz (tail bone) = min_z)
              bones
    /\ List.length (filter (fun bone => name_taken foot_names (name bone)) bones)
       = if is_quadruped then 4%nat else 2%nat.
Proof.
  destruct is_quadruped; eexists; (split; [run_edit; reflexivity|]);
    (split; [|reflexivity]);
    each_bone ltac:(intros Hfoot;
                    first [split; reflexivity
                          | exfalso; cbn in Hfoot; intuition discriminate]).
Qed.

(* ------------------------------------------------------------------ *)
(** ** Anchor coordinates *)

Lemma pelvis_center_formula
      (world_mat : Matrix) (width length height min_z : Q) :
  pelvis_x_of world_mat width length height min_z
  == c2 (r0 world_mat) * (min_z + height / 2) + c3 (r0 world_mat)
  /\ pelvis_y_of world_mat width length height min_z
     == c2 (r1 world_mat) * (min_z + height / 2) + c3 (r1 world_mat)
  /\ vz (max_bb_world_of world_mat width length height min_z)
     == c0 (r2 world_mat) * (width / 2) + c1 (r2 world_mat) * (length / 2)
        + c2 (r2 world_mat) * (height + min_z) + c3 (r2 world_mat).
Proof.
  unfold pelvis_x_of, pelvis_y_of, min_bb_world_of, max_bb_world_of,
    mat_mul_vec, row_dot.
  cbn [vx vy vz]. repeat split; field.
Qed.

(** X14: the pelvis centre does not depend on the width and the length of
    the bounding box, whatever the world matrix: the corners [min_bb] and
    [max_bb] are opposite in x and y, so the first two columns of the matrix
    cancel in their midpoint.  Two meshes of the same height and ground level
    under the same matrix get the same pelvis x and y. *)
Theorem pelvis_center_ignores_footprint
        (world_mat : Matrix) (width length width' length' height min_z : Q) :
  pelvis_x_of world_mat width length height min_z
  == pelvis_x_of world_mat width' length' height min_z
  /\ pelvis_y_of world_mat width length height min_z
     == pelvis_y_of world_mat width' length' height min_z.
Proof.
  destruct (pelvis_center_formula world_mat width length height min_z)
    as [Hx [Hy _]].
  destruct (pelvis_center_formula world_mat width' length' height min_z)
    as [Hx' [Hy' _]].
  rewrite Hx, Hy, Hx', Hy'. split; reflexivity.
Qed.

Lemma translation_anchors (t : Vector) (width length height min_z : Q) :
  pelvis_x_of (translation_matrix t) width length height min_z == vx t
  /\ pelvis_y_of (translation_matrix t) width length height min_z == vy t
  /\ vz (max_bb_world_of (translation_matrix t) width length height min_z)
     == height + min_z + vz t.
Proof.
  destruct (pelvis_center_formula (translation_matrix t) width length height min_z)
    as [Hx [Hy Hz]].
  rewrite Hx, Hy, Hz. cbn. repeat split; ring.
Qed.

(** X15: for an object that is only moved (world matrix a translation by
    [t]) the pelvis is centred on the translation in x and y, and the top of
    the bounding box is taken at height + min_z + t.z: the translation in z
    is added to a ground level that is already a world coordinate. *)
Theorem translation_pelvis_and_top (t : Vector) (width length height min_z : Q) :
  exists bones spine head_bone,
    rig_bones (translation_matrix t) width length height min_z false []
    = Ok (tt, bones)
    /\ nth_error bones 0 = Some spine
    /\ nth_error bones 3 = Some head_bone
    /\ name spine = "Spine"%string
    /\ name head_bone = "Head"%string
    /\ veq (head spine) (mkVector (vx t) (vy t) (min_z + 0.7 * height))
    /\ veq (tail head_bone) (mkVector (vx t) (vy t) (height + min_z + vz t)).
Proof.
  destruct (translation_anchors t width length height min_z) as [Hx [Hy Hz]].
  do 3 eexists. split; [run_edit; reflexivity|].
  do 4 (split; [reflexivity|]).
  unfold veq; cbn [head tail vx vy vz].
  rewrite Hx, Hy, Hz. repeat split; reflexivity.
Qed.

(* ------------------------------------------------------------------ *)
(** ** Heights along the spine *)

(** X16: the humanoid spine column is 0.8 * height long and starts at 0.7 *
    height: "Spine.002" ends, and "Head" starts, 1.5 * height above the
    ground level.  For an object that is only moved by [t] with
    t.z < 0.5 * height (an object left at the origin, of positive height, is
    one) this is above the top of the bounding box, where "Head" ends: the
    head bone points downwards. *)
Theorem humanoid_head_points_down (t : Vector) (width length height min_z : Q) :
  vz t < 0.5 * height ->
  exists bones neck head_bone,
    rig_bones (translation_matrix t) width length height min_z false []
    = Ok (tt, bones)
    /\ nth_error bones 2 = Some neck
    /\ nth_error bones 3 = Some head_bone
    /\ name neck = "Spine.002"%string
    /\ name head_bone = "Head"%string
    /\ vz (tail neck) == min_z + 1.5 * height
    /\ head head_bone = tail neck
    /\ vz (tail head_bone) < vz (head head_bone).
Proof.
  intros Ht.
  destruct (translation_anchors t width length height min_z) as [_ [_ Hz]].
  do 3 eexists. split; [run_edit; reflexivity|].
  do 4 (split; [reflexivity|]).
  cbn [head tail vx vy vz]. split; [lra|]. split; [reflexivity|].
  rewrite Hz. lra.
Qed.

Lemma humanoid_head_points_down_witness :
  exists bones neck head_bone,
    rig_bones (translation_matrix zero_vector) 1 2 2 0 false [] = Ok (tt, bones)
    /\ nth_error bones 2 = Some neck
    /\ nth_error bones 3 = Some head_bone
    /\ name neck = "Spine.002"%string
    /\ name head_bone = "Head"%string
    /\ vz (tail neck) == 0 + 1.5 * 2
    /\ head head_bone = tail neck
    /\ vz (tail head_bone) < vz (head head_bone).
Proof.
  apply (humanoid_head_points_down zero_vector 1 2 2 0). reflexivity.
Defined.

(** X17: the quadruped "Neck" is vertical, over the front end of "Spine",
    and for an object that is only moved by [t] it rises by
    0.8 * t.z - 0.2 * min_z: its end is 0.8 times an absolute z.  For an
    object left at the origin whose lowest vertex is at z = 0 it has no
    length at all: head and tail coincide. *)
Theorem quadruped_neck_extent (t : Vector) (width length height min_z : Q) :
  exists bones spine neck_bone,
    rig_bones (translation_matrix t) width length height min_z true []
    = Ok (tt, bones)
    /\ nth_error bones 0 = Some spine
    /\ nth_error bones 1 = Some neck_bone
    /\ name neck_bone = "Neck"%string
    /\ vx (head neck_bone) == vx (tail spine)
    /\ vy (head neck_bone) == vy (tail spine)
    /\ vertical neck_bone
    /\ vz (tail neck_bone) - vz (head neck_bone) == 0.8 * vz t - 0.2 * min_z
    /\ (0.8 * vz t == 0.2 * min_z -> veq (head neck_bone) (tail neck_bone)).
Proof.
  destruct (translation_anchors t width length height min_z) as [_ [_ Hz]].
  do 3 eexists. split; [run_edit; reflexivity|].
  do 3 (split; [reflexivity|]).
  unfold vertical, veq. cbn [head tail vx vy vz].
  rewrite Hz. repeat split; lra.
Qed.

Lemma quadruped_neck_extent_witness :
  exists bones neck_bone,
    rig_bones (translation_matrix zero_vector) 1 2 2 0 true [] = Ok (tt, bones)
    /\ nth_error bones 1 = Some neck_bone
    /\ name neck_bone = "Neck"%string
    /\ veq (head neck_bone) (tail neck_bone).
Proof.
  destruct (quadruped_neck_extent zero_vector 1 2 2 0)
    as [bones [spine [neck_bone [Hrun [_ [Hn [Hname [_ [_ [_ [_ Hzero]]]]]]]]]]].
  exists bones, neck_bone. repeat split; trivial; apply Hzero; reflexivity.
Defined.

(** X18: the quadruped legs hang from the two ends of "Spine".  The upper
    arms start at the height of its front end (the tail), 0.3 * width to
    either side, the thighs the same at its rear end (the head); "Spine"
    itself is level, 0.5 * length long, and centred on the pelvis. *)
Theorem quadruped_legs_at_spine_ends
        (world_mat : Matrix) (width length height min_z : Q) :
  let pelvis_y := pelvis_y_of world_mat width length height min_z in
  exists bones spine arm_l arm_r thigh_l thigh_r,
    rig_bones world_mat width length height min_z true [] = Ok (tt, bones)
    /\ nth_error bones 0 = Some spine
    /\ nth_error bones 3 = Some arm_l /\ nth_error bones 4 = Some arm_r
    /\ nth_error bones 9 = Some thigh_l /\ nth_error bones 10 = Some thigh_r
    /\ (name arm_l = "upper_arm.L" /\ name arm_r = "upper_arm.R"
        /\ name thigh_l = "thigh.L" /\ name thigh_r = "thigh.R")%string
    /\ (vx (head spine) = vx (tail spine) /\ vz (head spine) = vz (tail spine)
        /\ vy (tail spine) - vy (head spine) == 0.5 * length
        /\ vy (tail spine) + vy (head spine) == 2 * pelvis_y)
    /\ veq (head arm_l) (tail spine +v mkVector (0.3 * width) 0 0)
    /\ veq (head arm_r) (tail spine +v mkVector (- (0.3 * width)) 0 0)
    /\ veq (head thigh_l) (head spine +v mkVector (0.3 * width) 0 0)
    /\ veq (head thigh_r) (head spine +v mkVector (- (0.3 * width)) 0 0).
Proof.
  intros pelvis_y. subst pelvis_y.
  do 6 eexists. split; [run_edit; reflexivity|].
  do 5 (split; [reflexivity|]).
  split; [repeat split; reflexivity|].
  unfold veq, vadd; cbn [head tail vx vy vz].
  repeat split; try reflexivity; lra.
Qed.

(* ------------------------------------------------------------------ *)
(** ** The armature a run adds *)

Lemma build_rig_run (world_mat : Matrix) (width length height min_z : Q)
      (is_quadruped : bool) (data : BlendData) (bones : list EditBone) :
  rig_bones world_mat width length height min_z is_quadruped [] = Ok (tt, bones) ->
  let arm :=
    mkArmature (unique_name (map arm_name data) "Armature" "AutoRigArmature")
               bones in
  build_rig world_mat width length height min_z is_quadruped data
  = Ok (arm, data ++ [arm]).
Proof.
  intros Hrun arm. unfold build_rig, armatures_new.
  cbn [edit_bones arm_name]. rewrite Hrun. cbn [rbind snd].
  rewrite removelast_last. reflexivity.
Qed.

(** X19: a run adds exactly one armature to those the host holds and
    leaves the others as they are.  The name of the new armature is not the
    name of any of them (a rig made earlier is never overwritten), and it is
    "AutoRigArmature" when that name is free. *)
Theorem build_rig_adds_one_armature
        (world_mat : Matrix) (width length height min_z : Q)
        (is_quadruped : bool) (data : BlendData) :
  exists arm,
    build_rig world_mat width length height min_z is_quadruped data
    = Ok (arm, data ++ [arm])
    /\ ~ In (arm_name arm) (map arm_name data)
    /\ (~ In "AutoRigArmature"%string (map arm_name data) ->
        arm_name arm = "AutoRigArmature"%string).
Proof.
  destruct (rig_bones_total world_mat width length height min_z is_quadruped)
    as [bones [Hrun _]].
  eexists. split; [exact (build_rig_run _ _ _ _ _ _ data bones Hrun)|].
  cbn [arm_name]. split.
  - apply unique_name_fresh.
  - intros Hfree. apply unique_name_keeps; trivial.
    + discriminate.
    + cbn. lia.
Qed.

Lemma build_rig_adds_one_armature_witness :
  exists arm,
    build_rig identity_matrix 1 2 2 0 true [] = Ok (arm, [] ++ [arm])
    /\ arm_name arm = "AutoRigArmature"%string.
Proof.
  destruct (build_rig_adds_one_armature identity_matrix 1 2 2 0 true [])
    as [arm [Hrun [_ Hname]]].
  exists arm. split; [exact Hrun|]. apply Hname. intros [].
Defined.

(* ------------------------------------------------------------------ *)
(** ** From the mesh to the skeleton *)

Lemma classify_is_quadruped (height : Q) (verts : list Vector) :
  exists cls,
    classify height verts = Ok cls
    /\ (is_quadruped cls = true <-> wide_stance height verts).
Proof.
  destruct verts as [|v0 verts].
  - eexists. split; [apply classify_empty|]. cbn [is_quadruped].
    split; [discriminate|].
    intros [g [lr [rr [tr [_ [[v [[] _]] _]]]]]].
  - destruct (classify_sound height (v0 :: verts)) as [cls [Hc [_ [Hq _]]]];
      [discriminate|].
    now exists cls.
Qed.

(** X20: analysis and build together.  For every mesh object and every host
    state the analysis returns and [auto_rig_glb] completes, adding one
    armature; its bones and parent links are those of the quadruped skeleton
    when the analysis set [is_quadruped], the flag line 124 branches on, and
    those of the humanoid skeleton when it did not. *)
Theorem auto_rig_glb_follows_flag (mesh_obj : MeshObject) (data : BlendData) :
  let height := vz (dimensions mesh_obj) in
  let verts := map (mat_mul_vec (matrix_world mesh_obj)) (vertices mesh_obj) in
  exists cls arm,
    classify height verts = Ok cls
    /\ auto_rig_glb mesh_obj data = Ok (arm, data ++ [arm])
    /\ links (edit_bones arm)
       = (if is_quadruped cls then quadruped_links else humanoid_links)
    /\ bone_names (edit_bones arm)
       = (if is_quadruped cls then quadruped_bone_names else humanoid_bone_names).
Proof.
  intros height verts. unfold auto_rig_glb. fold height. fold verts.
  destruct (classify_total height verts) as [cls Hc].
  exists cls. rewrite Hc. cbn [rbind].
  destruct (rig_bones_total (matrix_world mesh_obj)
              (vx (dimensions mesh_obj)) (vy (dimensions mesh_obj))
              height (min_z cls) (is_quadruped cls))
    as [bones [Hrun Hl]].
  eexists. split; [reflexivity|].
  split; [exact (build_rig_run _ _ _ _ _ _ data bones Hrun)|].
  cbn [edit_bones]. split; [exact Hl|].
  rewrite links_names, Hl. now destruct (is_quadruped cls).
Qed.

Example auto_rig_glb_dog :
  exists arm,
    auto_rig_glb
      (mkMeshObject (mkVector 0.4 2 1) identity_matrix
         [mkVector (-0.2) (-1) 0; mkVector (-0.2) 1 0;
          mkVector 0.2 (-1) 0; mkVector 0.2 1 0; mkVector 0 0 1]) []
    = Ok (arm, [arm])
    /\ bone_names (edit_bones arm) = quadruped_bone_names.
Proof.
  eexists. split; [vm_compute; reflexivity | reflexivity].
Qed.

(* ------------------------------------------------------------------ *)
(** ** The entry point, case by case *)

(** X21: what the guard of lines 227-231 does is decided by [sys.argv[1]]
    alone.  It raises [IndexError] exactly when there are fewer than two
    entries, prints the usage line exactly when the second entry is the
    empty string, and calls [auto_rig_glb] on a path exactly when that path
    is the second entry and is not empty; further entries are ignored. *)
Theorem main_cases (argv : list string) :
  (main argv = Raise IndexError <-> (List.length argv < 2)%nat)
  /\ (main argv = Ok (Prints "Need filepath!")
      <-> nth_error argv 1 = Some EmptyString)
  /\ (forall filepath,
         main argv = Ok (Call_auto_rig_glb filepath)
         <-> nth_error argv 1 = Some filepath /\ filepath <> EmptyString).
Proof.
  unfold main, py_index, truthy.
  destruct argv as [|script [|arg rest]]; cbn [nth_error rbind List.length].
  - split; [split; [lia | reflexivity]|]. split; [split; discriminate|].
    intros filepath. split; [discriminate | intros [H _]; discriminate H].
  - split; [split; [lia | reflexivity]|]. split; [split; discriminate|].
    intros filepath. split; [discriminate | intros [H _]; discriminate H].
  - destruct (String.eqb arg "") eqn:E; cbn [negb].
    + apply String.eqb_eq in E. subst arg.
      split; [split; [discriminate | lia]|].
      split; [split; reflexivity|].
      intros filepath. split; [discriminate|].
      intros [H Hne]. injection H as <-. now elim Hne.
    + apply String.eqb_neq in E.
      split; [split; [discriminate | lia]|].
      split; [split; [discriminate | intros H; injection H as ->; now elim E]|].
      intros filepath. split.
      * intros H. injection H as <-. split; [reflexivity | exact E].
      * intros [H _]. injection H as <-. reflexivity.
Qed.

(* ------------------------------------------------------------------ *)
(** ** The whole function *)

Lemma filter_mesh_nonempty (selected_objects : list SceneObject) :
  nonempty (filter (fun obj => String.eqb (obj_type obj) "MESH") selected_objects)
  = true
  <-> exists obj, In obj selected_objects /\ obj_type obj = "MESH"%string.
Proof.
  rewrite nonempty_In. split.
  - intros [obj Hobj]. apply filter_In in Hobj as [Hin E].
    apply String.eqb_eq in E. now exists obj.
  - intros [obj [Hin E]]. exists obj. apply filter_In. split; [exact Hin|].
    now apply String.eqb_eq.
Qed.

Lemma script_on_mesh (objects : list string) (data : BlendData)
      (obj : SceneObject) (others : list SceneObject) :
  exists arm line1,
    auto_rig_glb (as_mesh obj) data = Ok (arm, data ++ [arm])
    /\ rig_first_mesh objects data (obj :: others)
       = Ok (mkOutcome None
               [line1;
                String.append "Rigging complete. Created armature: "
                  (unique_name objects "Object" "AutoRigArmature")]
               (data ++ [arm]) (Some "dog.fbx"%string)).
Proof.
  unfold rig_first_mesh, auto_rig_glb, py_index. cbn [nth_error rbind].
  destruct (classify_total (vz (dimensions (as_mesh obj)))
              (map (mat_mul_vec (matrix_world (as_mesh obj)))
                   (vertices (as_mesh obj)))) as [cls Hc].
  rewrite Hc. cbn [rbind].
  destruct (rig_bones_total (matrix_world (as_mesh obj))
              (vx (dimensions (as_mesh obj))) (vy (dimensions (as_mesh obj)))
              (vz (dimensions (as_mesh obj))) (min_z cls) (is_quadruped cls))
    as [bones [Hrun _]].
  rewrite (build_rig_run _ _ _ _ _ _ data bones Hrun). cbn [rbind snd].
  eexists; eexists. split; reflexivity.
Qed.

(** X22: the function as a whole never raises and never returns an
    armature: also a completed run ends without a [return].  It exports,
    always to the file "dog.fbx" whatever the path it was given, exactly
    when the import leaves an object of type MESH selected; in that case it
    prints two lines and adds one armature.  Otherwise (the import raises,
    or no mesh is selected) it prints one line and the armatures of the
    host are untouched. *)
Theorem auto_rig_glb_script_outcome
        (filepath : string) (import : ImportOutcome)
        (objects : list string) (data : BlendData) :
  exists out,
    auto_rig_glb_script filepath import objects data = Ok out
    /\ returned out = None
    /\ (exported out = Some "dog.fbx"%string
        <-> exists selected_objects obj,
              import = Import_selects selected_objects
              /\ In obj selected_objects /\ obj_type obj = "MESH"%string)
    /\ (exported out = Some "dog.fbx"%string ->
        List.length (printed out) = 2%nat
        /\ exists arm, blend_data out = data ++ [arm])
    /\ (exported out <> Some "dog.fbx"%string ->
        exported out = None
        /\ List.length (printed out) = 1%nat
        /\ blend_data out = data).
Proof.
  destruct import as [e | selected_objects]; unfold auto_rig_glb_script.
  - eexists. split; [reflexivity|]. cbn. split; [reflexivity|]. split.
    + split; [discriminate|]. intros [sel [obj [H _]]]. discriminate H.
    + split; [discriminate|]. intros _. repeat split.
  - destruct (nonempty (filter (fun obj => String.eqb (obj_type obj) "MESH")
                               selected_objects)) eqn:Hmesh; cbn [negb].
    + destruct (filter (fun obj => String.eqb (obj_type obj) "MESH")
                       selected_objects) as [|obj others] eqn:Hf;
        [discriminate Hmesh|].
      destruct (script_on_mesh objects data obj others)
        as [arm [line1 [_ Hscript]]].
      rewrite Hscript. eexists. split; [reflexivity|]. cbn.
      split; [reflexivity|]. split.
      * split; [|reflexivity]. intros _.
        rewrite <- Hf in Hmesh. apply filter_mesh_nonempty in Hmesh.
        destruct Hmesh as [o [Hin E]]. now exists selected_objects, o.
      * split; [intros _; split; [reflexivity | now exists arm]|].
        intros Hne. now elim Hne.
    + eexists. split; [reflexivity|]. cbn. split; [reflexivity|]. split.
      * split; [discriminate|]. intros [sel [obj [H [Hin E]]]].
        injection H as <-.
        assert (Hyes : nonempty (filter (fun obj => String.eqb (obj_type obj) "MESH")
                                        selected_objects) = true).
        { apply filter_mesh_nonempty. now exists obj. }
        rewrite Hyes in Hmesh. discriminate Hmesh.
      * split; [discriminate|]. intros _. repeat split.
Qed.

(** X23: the rig is made for the first selected object of type MESH and for
    that one only.  Objects of other types before it and all objects after
    it make no difference, and the armature added is the one
    [auto_rig_glb]'s analysis and build make for that mesh. *)
Theorem auto_rig_glb_script_first_mesh
        (filepath : string) (objects : list string) (data : BlendData)
        (before after : list SceneObject) (obj : SceneObject) :
  (forall o, In o before -> obj_type o <> "MESH"%string) ->
  obj_type obj = "MESH"%string ->
  auto_rig_glb_script filepath (Import_selects (before ++ obj :: after))
                      objects data
  = auto_rig_glb_script filepath (Import_selects [obj]) objects data
  /\ exists out arm,
       auto_rig_glb_script filepath (Import_selects (before ++ obj :: after))
                           objects data = Ok out
       /\ auto_rig_glb (as_mesh obj) data = Ok (arm, data ++ [arm])
       /\ blend_data out = data ++ [arm].
Proof.
  intros Hbefore Hobj.
  assert (Hf : filter (fun o => String.eqb (obj_type o) "MESH")
                      (before ++ obj :: after)
               = obj :: filter (fun o => String.eqb (obj_type o) "MESH") after).
  { rewrite filter_app. cbn [filter].
    rewrite (proj2 (String.eqb_eq _ _) Hobj).
    replace (filter (fun o => String.eqb (obj_type o) "MESH") before)
      with (@nil SceneObject); [reflexivity|].
    symmetry. clear - Hbefore. induction before as [|o before IH]; [reflexivity|].
    cbn [filter]. destruct (String.eqb (obj_type o) "MESH") eqn:E.
    - apply String.eqb_eq in E. elim (Hbefore o); [now left | exact E].
    - apply IH. intros o' Ho'. apply Hbefore. now right. }
  assert (Hf1 : filter (fun o => String.eqb (obj_type o) "MESH") [obj] = [obj]).
  { cbn [filter]. now rewrite (proj2 (String.eqb_eq _ _) Hobj). }
  unfold auto_rig_glb_script. rewrite Hf, Hf1. cbn [nonempty negb].
  destruct (script_on_mesh objects data obj
              (filter (fun o => String.eqb (obj_type o) "MESH") after))
    as [arm [line1 [Hrig Hscript]]].
  split; [reflexivity|].
  rewrite Hscript. eexists; exists arm. split; [reflexivity|].
  split; [exact Hrig | reflexivity].
Qed.

Lemma auto_rig_glb_script_first_mesh_witness :
  let mesh := mkMeshObject (mkVector 1 2 2) identity_matrix
                [mkVector (-0.5) (-1) 0; mkVector 0.5 1 2] in
  let dog := mkMeshObject (mkVector 0.4 2 1) identity_matrix
               [mkVector (-0.2) (-1) 0; mkVector (-0.2) 1 0;
                mkVector 0.2 (-1) 0; mkVector 0.2 1 0; mkVector 0 0 1] in
  let empty := mkSceneObject "EMPTY" dog in
  let first := mkSceneObject "MESH" mesh in
  let second := mkSceneObject "MESH" dog in
  auto_rig_glb_script "a.glb" (Import_selects ([empty] ++ first :: [second]))
                      [] []
  = auto_rig_glb_script "a.glb" (Import_selects [first]) [] []
  /\ exists out arm,
       auto_rig_glb_script "a.glb" (Import_selects ([empty] ++ first :: [second]))
                           [] [] = Ok out
       /\ auto_rig_glb (as_mesh first) [] = Ok (arm, [] ++ [arm])
       /\ blend_data out = [] ++ [arm].
Proof.
  intros mesh dog empty first second.
  apply (auto_rig_glb_script_first_mesh "a.glb" [] [] [empty] [second] first).
  - intros o [<-|[]]. discriminate.
  - reflexivity.
Defined.

Example auto_rig_glb_script_import_fails :
  auto_rig_glb_script "a.glb" (Import_raises "bad file") [] []
  = Ok (mkOutcome None ["Failed to import a.glb: bad file"%string] [] None).
Proof. reflexivity. Qed.

Example auto_rig_glb_script_no_mesh :
  auto_rig_glb_script "a.glb" (Import_selects []) [] []
  = Ok (mkOutcome None ["No mesh found in imported file."%string] [] None).
Proof. reflexivity. Qed.
